(** * pure_ocean_breeze.data.tools: data wrangling helpers

    A shallow embedding of the table utilities of
    [src/pure_ocean_breeze/data/tools.py]: [get_value], [merge_many],
    [func_two_daily] with its inner [func_rolling], and
    [drop_duplicates_index].

    The Python code is a thin layer over pandas, numpy and numpy_ext.  Each
    library call the functions make is given here as a definition of its own,
    named after the call, carrying the documented behaviour of the call on
    the arguments the source passes; the functions of [tools.py] are then
    transcribed statement by statement on top of them. *)

From Stdlib Require Import ZArith List String Ascii Bool Lia Permutation.
From Stdlib Require Import Sorting.Sorted Structures.OrderedTypeEx DecimalString.
Import ListNotations.

Set Implicit Arguments.
Local Open Scope string_scope.
Local Open Scope list_scope.
Local Open Scope Z_scope.

(** ** Python exceptions and results *)

Module Py.

(** An exception is identified by the name of its class. *)
Inductive exn : Type := Exn (class_name : string).

Definition TypeError : exn := Exn "TypeError".
Definition ValueError : exn := Exn "ValueError".
Definition KeyError : exn := Exn "KeyError".
Definition IndexError : exn := Exn "IndexError".

(** The outcome of running a statement: a value, or a raised exception. *)
Inductive result (A : Type) : Type :=
| Ok (a : A)
| Raise (e : exn).

Arguments Ok {A} a.
Arguments Raise {A} e.

Definition bind {A B : Type} (m : result A) (k : A -> result B) : result B :=
  match m with
  | Ok a => k a
  | Raise e => Raise e
  end.

(** [try: body / except Exception: handler]; every class above derives
    from [Exception], so the handler sees all of them. *)
Definition try_except {A : Type} (body : result A) (handler : exn -> result A)
  : result A :=
  match body with
  | Ok a => Ok a
  | Raise e => handler e
  end.

(** A comprehension or an element-wise map whose body may raise: the first
    exception met leaves the loop. *)
Fixpoint mapM {A B : Type} (f : A -> result B) (l : list A) : result (list B) :=
  match l with
  | [] => Ok []
  | a :: l' =>
      bind (f a) (fun b => bind (mapM f l') (fun bs => Ok (b :: bs)))
  end.

End Py.

Import Py.

Declare Scope py_scope.
Delimit Scope py_scope with py.
Notation "x <- m ;; k" := (bind m (fun x => k))
  (at level 61, m at next level, right associativity) : py_scope.
Local Open Scope py_scope.

(** ** Cell values *)

(** What a cell, a row label or a statistic can hold.  [NaN] stands for
    every missing marker of pandas ([nan], [None], [NaT]); numbers are kept
    as exact integers, since nothing below computes with them; a timestamp
    is a day number. *)
Inductive scalar : Type :=
| NaN
| Num (x : Z)
| Str (s : string)
| Stamp (t : Z).

Definition scalar_eq_dec (a b : scalar) : {a = b} + {a <> b}.
Proof.
  decide equality; first [apply Z.eq_dec | apply string_dec].
Defined.

Definition scalar_eqb (a b : scalar) : bool :=
  if scalar_eq_dec a b then true else false.

Definition isna (a : scalar) : bool :=
  match a with NaN => true | _ => false end.

(** Python objects that a cell of [get_value]'s argument may hold: a plain
    scalar, or a list or tuple of objects. *)
#[warnings="-register-all"]
Inductive pyobj : Type :=
| Atom (a : scalar)
| PyList (items : list pyobj)
| PyTuple (items : list pyobj).

(** ** Data frames *)

(** A frame with a single-level index: the names of the index and of the
    column axis, the column labels in order, and the rows in order, each
    with its index label and its cells (one per column). *)
Record DataFrame (C : Type) : Type := mkDataFrame {
  index_name : option scalar;
  columns_name : option scalar;
  columns : list scalar;
  rows : list (scalar * list C)
}.

Arguments mkDataFrame {C} index_name columns_name columns rows.

Definition index {C : Type} (df : DataFrame C) : list scalar :=
  map fst (rows df).

(** ** get_value *)

(** [seq\[n\]] on a Python sequence of length [len]: a negative [n] counts
    from the end, anything out of range raises [IndexError]. *)
Definition subscript {A : Type} (items : list A) (n : Z) : result A :=
  let len := Z.of_nat (List.length items) in
  let i := if n <? 0 then n + len else n in
  if (0 <=? i) && (i <? len)
  then match nth_error items (Z.to_nat i) with
       | Some v => Ok v
       | None => Raise IndexError
       end
  else Raise IndexError.

Definition chars (s : string) : list string :=
  map (fun c => String c EmptyString) (list_ascii_of_string s).

(** [x\[n\]]: lists, tuples and strings are subscriptable; a number, [nan]
    or [None] is not and raises [TypeError]. *)
Definition getitem (x : pyobj) (n : Z) : result pyobj :=
  match x with
  | PyList items => subscript items n
  | PyTuple items => subscript items n
  | Atom (Str s) => c <- subscript (chars s) n ;; Ok (Atom (Str c))
  | Atom _ => Raise TypeError
  end.

(** [DataFrame.applymap]: the function is applied to every cell, labels and
    shape are kept; an exception of the function propagates. *)
Definition applymap {C D : Type} (f : C -> result D) (df : DataFrame C)
  : result (DataFrame D) :=
  rs <- mapM (fun r : scalar * list C =>
                cells <- mapM f (snd r) ;; Ok (fst r, cells)) (rows df) ;;
  Ok (mkDataFrame (index_name df) (columns_name df) (columns df) rs).

Definition get_value_single (x : pyobj) (n : Z) : result pyobj :=
  try_except (getitem x n) (fun _ => Ok (Atom NaN)).

Definition get_value (df : DataFrame pyobj) (n : Z) : result (DataFrame pyobj) :=
  applymap (fun x => get_value_single x n) df.

(** ** drop_duplicates_index *)

Definition has_label (name : scalar) (cols : list scalar) : bool :=
  existsb (scalar_eqb name) cols.

(** [RangeIndex]: the labels 0, 1, 2, ... *)
Fixpoint range_from {A : Type} (start : Z) (l : list A) : list (scalar * A) :=
  match l with
  | [] => []
  | a :: l' => (Num start, a) :: range_from (start + 1) l'
  end.

(** The label [reset_index] gives the column made from the index: the name
    of the index, or ["index"] when it has none (["level_0"] when a column
    is already called ["index"]). *)
Definition reset_name {C : Type} (df : DataFrame C) : scalar :=
  match index_name df with
  | Some n => n
  | None =>
      if has_label (Str "index") (columns df) then Str "level_0" else Str "index"
  end.

(** [DataFrame.reset_index()]: the index becomes the first column and is
    replaced by a [RangeIndex]; inserting a label that is already a column
    raises [ValueError] ("cannot insert ..., already exists"). *)
Definition reset_index (df : DataFrame scalar) : result (DataFrame scalar) :=
  let name := reset_name df in
  if has_label name (columns df)
  then Raise ValueError
  else Ok (mkDataFrame None (columns_name df) (name :: columns df)
             (range_from 0 (map (fun r => fst r :: snd r) (rows df)))).

(** [DataFrame.rename(columns={old: new})]: every column labelled [old]. *)
Definition rename_columns {C : Type} (old new : scalar) (df : DataFrame C)
  : DataFrame C :=
  mkDataFrame (index_name df) (columns_name df)
    (map (fun c => if scalar_eqb c old then new else c) (columns df))
    (rows df).

(** The cells of a row that stand under the columns labelled [name]. *)
Fixpoint under {C : Type} (name : scalar) (cols : list scalar) (cells : list C)
  : list C :=
  match cols, cells with
  | c :: cols', x :: cells' =>
      if scalar_eqb c name then x :: under name cols' cells'
      else under name cols' cells'
  | _, _ => []
  end.

(** The cells of a row that do not stand under a column labelled [name]. *)
Fixpoint without {C : Type} (name : scalar) (cols : list scalar) (cells : list C)
  : list C :=
  match cols, cells with
  | c :: cols', x :: cells' =>
      if scalar_eqb c name then without name cols' cells'
      else x :: without name cols' cells'
  | _, _ => cells
  end.

Definition key_eqb (k1 k2 : list scalar) : bool :=
  if list_eq_dec scalar_eq_dec k1 k2 then true else false.

(** [DataFrame.duplicated(keep="first")] over a list of row keys: a row is
    marked when its key was met on an earlier row. *)
Fixpoint duplicated (seen : list (list scalar)) (keys : list (list scalar))
  : list bool :=
  match keys with
  | [] => []
  | k :: keys' => existsb (key_eqb k) seen :: duplicated (k :: seen) keys'
  end.

(** Boolean indexing [df\[mask\]]. *)
Fixpoint select {A : Type} (mask : list bool) (l : list A) : list A :=
  match mask, l with
  | m :: mask', a :: l' => if m then a :: select mask' l' else select mask' l'
  | _, _ => []
  end.

(** [DataFrame.drop_duplicates(subset=\[name\], keep="first")]: the key of a
    row is made of its cells under the columns labelled [name]; a missing
    label raises [KeyError]. *)
Definition drop_duplicates (name : scalar) (df : DataFrame scalar)
  : result (DataFrame scalar) :=
  if has_label name (columns df)
  then
    let keys := map (fun r => under name (columns df) (snd r)) (rows df) in
    Ok (mkDataFrame (index_name df) (columns_name df) (columns df)
          (select (map negb (duplicated [] keys)) (rows df)))
  else Raise KeyError.

(** [DataFrame.set_index(name)]: the column becomes the index and is taken
    out of the columns.  A missing label raises [KeyError]; a label carried
    by several columns selects a two-dimensional block, which an index
    refuses with [ValueError]. *)
Definition set_index (name : scalar) (df : DataFrame scalar)
  : result (DataFrame scalar) :=
  match List.filter (scalar_eqb name) (columns df) with
  | [] => Raise KeyError
  | [_] =>
      Ok (mkDataFrame (Some name) (columns_name df)
            (List.filter (fun c => negb (scalar_eqb c name)) (columns df))
            (map (fun r => (hd NaN (under name (columns df) (snd r)),
                            without name (columns df) (snd r)))
               (rows df)))
  | _ => Raise ValueError
  end.

(** [list(new.columns)\[0\]] *)
Definition first_column {C : Type} (df : DataFrame C) : result scalar :=
  match columns df with
  | [] => Raise IndexError
  | c :: _ => Ok c
  end.

Definition drop_duplicates_index (new : DataFrame scalar)
  : result (DataFrame scalar) :=
  new <- reset_index new ;;
  c <- first_column new ;;
  let new := rename_columns c (Str "date") new in
  new <- drop_duplicates (Str "date") new ;;
  set_index (Str "date") new.

(** The frame can go through [drop_duplicates_index]: the label that
    [reset_index] inserts is not the label of a data column, and no data
    column is labelled ["date"]. *)
Definition labels_free {C : Type} (df : DataFrame C) : bool :=
  negb (has_label (reset_name df) (columns df))
  && negb (has_label (Str "date") (columns df)).

(** Rows of a frame that survive when, for every index label, only the first
    row carrying it is kept. *)
Fixpoint keep_first {A : Type} (seen : list scalar) (l : list (scalar * A))
  : list (scalar * A) :=
  match l with
  | [] => []
  | r :: l' =>
      if existsb (scalar_eqb (fst r)) seen
      then keep_first (fst r :: seen) l'
      else r :: keep_first (fst r :: seen) l'
  end.

(** [Subseq s l]: [s] is [l] with some elements left out, the others in
    their original order. *)
Inductive Subseq {A : Type} : list A -> list A -> Prop :=
| Subseq_nil : Subseq [] []
| Subseq_skip : forall a s l, Subseq s l -> Subseq s (a :: l)
| Subseq_keep : forall a s l, Subseq s l -> Subseq (a :: s) (a :: l).

(** The first row of [l] labelled [t]. *)
Definition first_at {A : Type} (t : scalar) (l : list (scalar * A))
  : option (scalar * A) :=
  find (fun r => scalar_eqb (fst r) t) l.

(** ** Ordering of labels *)

(** pandas sorts a column by comparing its values and puts missing values
    last.  A column holds values of one kind; across kinds the order below
    goes by kind, which keeps it total. *)
Definition rank (a : scalar) : Z :=
  match a with
  | Num _ => 0
  | Str _ => 1
  | Stamp _ => 2
  | NaN => 3
  end.

Definition scalar_leb (a b : scalar) : bool :=
  match a, b with
  | Num x, Num y => x <=? y
  | Str s, Str t => String.leb s t
  | Stamp x, Stamp y => x <=? y
  | _, _ => rank a <=? rank b
  end.

Section SortBy.

Variable A : Type.
Variable key : A -> scalar.

Fixpoint insert_by (x : A) (l : list A) : list A :=
  match l with
  | [] => [x]
  | y :: l' =>
      if scalar_leb (key x) (key y) then x :: y :: l' else y :: insert_by x l'
  end.

(** [sort_values] on one column: ascending on [key].  Rows with equal
    keys come out in the order they had, which is what the default sort of
    numpy does on a short column; the order pandas promises is only the
    one of the keys. *)
Fixpoint sort_by (l : list A) : list A :=
  match l with
  | [] => []
  | x :: l' => insert_by x (sort_by l')
  end.

Definition key_le (x y : A) : Prop := scalar_leb (key x) (key y) = true.

End SortBy.

(** The distinct labels of a list, ascending. *)
Definition sorted_unique (l : list scalar) : list scalar :=
  sort_by (fun k => k) (nodup scalar_eq_dec l).

(** ** merge_many *)

Definition cell_at (name : scalar) (cols cells : list scalar) : scalar :=
  hd NaN (under name cols cells).

(** One row of a wide panel, unpivoted: a line (row label, column label,
    value) for every cell that is not missing. *)
Fixpoint stack_row (t : scalar) (cols cells : list scalar) : list (list scalar) :=
  match cols, cells with
  | c :: cols', x :: cells' =>
      if isna x then stack_row t cols' cells'
      else [t; c; x] :: stack_row t cols' cells'
  | _, _ => []
  end.

(** [df.stack().reset_index()]: the two levels of the stacked index become
    columns labelled by the names of the axes ([level_0], [level_1] for an
    axis without name), the values stand under the label [0]. *)
Definition stack_reset_index (df : DataFrame scalar) : result (DataFrame scalar) :=
  let n0 := match index_name df with Some n => n | None => Str "level_0" end in
  let n1 := match columns_name df with Some n => n | None => Str "level_1" end in
  if scalar_eqb n0 n1 || scalar_eqb n0 (Num 0) || scalar_eqb n1 (Num 0)
  then Raise ValueError
  else Ok (mkDataFrame None None [n0; n1; Num 0]
             (range_from 0
                (flat_map (fun r => stack_row (fst r) (columns df) (snd r))
                   (rows df)))).

(** [list(i.columns)\[-1\]] *)
Definition last_column {C : Type} (df : DataFrame C) : result scalar :=
  match rev (columns df) with
  | [] => Raise IndexError
  | c :: _ => Ok c
  end.

Definition string_of_nat (n : nat) : string :=
  DecimalString.NilEmpty.string_of_uint (Nat.to_uint n).

Fixpoint drop_keys (on cols cells : list scalar) : list scalar :=
  match cols, cells with
  | c :: cols', x :: cells' =>
      if has_label c on then drop_keys on cols' cells'
      else x :: drop_keys on cols' cells'
  | _, _ => []
  end.

(** A label shared by both sides of a merge gets the side's suffix. *)
Definition with_suffix (sfx : string) (others : list scalar) (c : scalar) : scalar :=
  if has_label c others
  then match c with
       | Str s => Str (s ++ sfx)%string
       | Num x => Str (string_of_nat (Z.to_nat x) ++ sfx)%string
       | _ => c
       end
  else c.

(** [pd.merge(x, y, on=on)], an inner join: for every row of [x] in order,
    the rows of [y] with the same key; a key label missing on either side
    raises [KeyError]. *)
Definition pd_merge (on : list scalar) (x y : DataFrame scalar)
  : result (DataFrame scalar) :=
  if forallb (fun k => has_label k (columns x) && has_label k (columns y)) on
  then
    let free cols := List.filter (fun c => negb (has_label c on)) cols in
    let key (df : DataFrame scalar) (r : scalar * list scalar) :=
      map (fun k => cell_at k (columns df) (snd r)) on in
    Ok (mkDataFrame None None
          (map (fun c => if has_label c on then c
                         else with_suffix "_x" (free (columns y)) c) (columns x)
           ++ map (with_suffix "_y" (free (columns x))) (free (columns y)))
          (range_from 0
             (flat_map
                (fun rx =>
                   map (fun ry => snd rx ++ drop_keys on (columns y) (snd ry))
                     (List.filter (fun ry => key_eqb (key x rx) (key y ry))
                        (rows y)))
                (rows x))))
  else Raise KeyError.

(** [functools.reduce(function, iterable)].  The iterable is a required
    positional argument: a call that passes the function alone raises
    [TypeError] ("reduce expected at least 2 arguments, got 1"), and so does
    an empty iterable without initial value. *)
Definition functools_reduce {A : Type} (function : A -> A -> result A)
  (iterable : option (list A)) : result A :=
  match iterable with
  | None => Raise TypeError
  | Some [] => Raise TypeError
  | Some (a :: l) => fold_left (fun acc y => x <- acc ;; function x y) l (Ok a)
  end.

(** Lines 368 to 372 of [merge_many]: the default names, then every panel
    unpivoted and its value column renamed. *)
Definition merge_many_frames (dfs : list (DataFrame scalar))
  (names : option (list string)) : result (list (DataFrame scalar)) :=
  let num := List.length dfs in
  let names :=
    match names with
    | None => map (fun i => ("fac" ++ string_of_nat (i + 1)%nat)%string) (seq 0 num)
    | Some names => names
    end in
  dfs <- mapM stack_reset_index dfs ;;
  mapM (fun ij : DataFrame scalar * string =>
          c <- last_column (fst ij) ;;
          Ok (rename_columns c (Str (snd ij)) (fst ij)))
    (combine dfs names).

(** [lambda x, y: pd.merge(x, y, on=\["date", "code"\])] *)
Definition merge_on_date_code (x y : DataFrame scalar) : result (DataFrame scalar) :=
  pd_merge [Str "date"; Str "code"] x y.

(** Line 373 calls [reduce] with the function alone: the list [dfs] is not
    among its arguments. *)
Definition merge_many (dfs : list (DataFrame scalar)) (names : option (list string))
  : result (DataFrame scalar) :=
  dfs <- merge_many_frames dfs names ;;
  functools_reduce merge_on_date_code None.

(** ** func_two_daily *)

(** A row of the joined table [twins]. *)
Record Obs : Type := mkObs {
  date : scalar;
  code : scalar;
  fac1 : scalar;
  fac2 : scalar
}.

(** The rows of [twins] read through the four labels that [func_two_daily]
    uses ([groupby(\["code"\])], [sort_values(\["date"\])], [df.fac1],
    [df.fac2]). *)
Definition observations (twins : DataFrame scalar) : result (list Obs) :=
  if forallb (fun c => has_label c (columns twins))
       [Str "date"; Str "code"; Str "fac1"; Str "fac2"]
  then Ok (map (fun r =>
                  let at_ c := cell_at (Str c) (columns twins) (snd r) in
                  mkObs (at_ "date") (at_ "code") (at_ "fac1") (at_ "fac2"))
             (rows twins))
  else Raise KeyError.

(** The caller's function: it receives the two factor slices and the date
    slice of a window and returns a pair (timestamp, value). *)
Definition statistic : Type :=
  list scalar -> list scalar -> list scalar -> scalar * scalar.

(** [corr_in] of [corr_two_daily], over the correlation of numpy. *)
Definition corr_in (corrcoef : list scalar -> list scalar -> scalar) : statistic :=
  fun a b c => (last c NaN, corrcoef a b).

(** [array\[start : start + w\]] *)
Definition slice {A : Type} (start w : nat) (l : list A) : list A :=
  firstn w (skipn start l).

Definition prepend_na (arr : list (scalar * scalar)) (n : nat)
  : list (scalar * scalar) :=
  repeat (NaN, NaN) n ++ arr.

(** [numpy_ext.rolling_apply(func, window, a, b, c, n_jobs=6)].  Arrays of
    different sizes, or shorter than the window, raise [ValueError].  The
    function is applied to the [size - (window - 1)] slices of length
    [window], and [window - 1] rows of [nan] come before the results.  With a
    window of 0 or less the slices run empty and taking their first and last
    position raises [IndexError]. *)
Definition npext_rolling_apply (func : statistic) (window : Z)
  (a b c : list scalar) : result (list (scalar * scalar)) :=
  let size := List.length a in
  if negb (Nat.eqb (List.length b) size && Nat.eqb (List.length c) size)
  then Raise ValueError
  else if Z.of_nat size <? window then Raise ValueError
  else if window <=? 0 then Raise IndexError
  else
    let w := Z.to_nat window in
    let starts := seq 0 (size - (w - 1))%nat in
    Ok (prepend_na
          (map (fun s => func (slice s w a) (slice s w b) (slice s w c)) starts)
          (w - 1)%nat).

Definition func_rolling (the_func : statistic) (rolling_window : Z) (df : list Obs)
  : result (option (list (scalar * scalar))) :=
  let df := sort_by date df in
  if Z.of_nat (List.length df) >? rolling_window
  then
    df <- npext_rolling_apply the_func rolling_window
            (map fac1 df) (map fac2 df) (map date df) ;;
    Ok (Some df)
  else Ok None.

Definition is_none {A : Type} (o : option A) : bool :=
  match o with None => true | Some _ => false end.

(** The keys of [groupby(\["code"\])]: the distinct codes, ascending, a
    missing code belongs to no group. *)
Definition group_keys (twins : list Obs) : list scalar :=
  sorted_unique (List.filter (fun k => negb (isna k)) (map code twins)).

(** [twins.groupby(\["code"\]).apply(f)]: [f] receives the rows of each
    group in their order in [twins]; the results come back keyed by group,
    and as an empty frame when no group gave one. *)
Definition groupby_apply {R : Type} (f : list Obs -> result (option R))
  (twins : list Obs) : result (list (scalar * option R)) :=
  values <- mapM (fun k =>
                    v <- f (List.filter (fun o => scalar_eqb (code o) k) twins) ;;
                    Ok (k, v))
              (group_keys twins) ;;
  Ok (if forallb (fun kv => is_none (snd kv)) values then [] else values).

(** [pd.DataFrame(data)] of one result of [func_rolling]: [None] gives the
    empty frame, a two-column array a frame with the labels 0 and 1. *)
Definition pd_DataFrame (data : option (list (scalar * scalar))) : DataFrame scalar :=
  match data with
  | None => mkDataFrame None None [] []
  | Some arr =>
      mkDataFrame None None [Num 0; Num 1]
        (range_from 0 (map (fun p => [fst p; snd p]) arr))
  end.

(** [DataFrame.dropna()]: rows with a missing cell go. *)
Definition dropna (df : DataFrame scalar) : DataFrame scalar :=
  mkDataFrame (index_name df) (columns_name df) (columns df)
    (List.filter (fun r => negb (existsb isna (snd r))) (rows df)).

Fixpoint replace_under (name value : scalar) (cols cells : list scalar)
  : list scalar :=
  match cols, cells with
  | c :: cols', x :: cells' =>
      (if scalar_eqb c name then value else x)
        :: replace_under name value cols' cells'
  | _, _ => cells
  end.

(** [DataFrame.assign(name=value)] with a single value: a new last column,
    or new contents for the column that has the label. *)
Definition assign (name value : scalar) (df : DataFrame scalar) : DataFrame scalar :=
  if has_label name (columns df)
  then mkDataFrame (index_name df) (columns_name df) (columns df)
         (map (fun r => (fst r, replace_under name value (columns df) (snd r)))
            (rows df))
  else mkDataFrame (index_name df) (columns_name df) (columns df ++ [name])
         (map (fun r => (fst r, snd r ++ [value])) (rows df)).

(** The labels of several frames, each at its first appearance. *)
Definition union_labels (ls : list (list scalar)) : list scalar :=
  fold_left
    (fun acc cols => acc ++ List.filter (fun c => negb (has_label c acc)) cols)
    ls [].

(** [pd.concat(objs)]: no frame at all raises [ValueError]; frames without
    rows and without columns are left out when others remain; the columns are
    the union of the labels in order of first appearance, the rows follow
    frame after frame, a cell under a label its frame lacks is missing. *)
Definition pd_concat (objs : list (DataFrame scalar)) : result (DataFrame scalar) :=
  match objs with
  | [] => Raise ValueError
  | _ =>
      let non_empties :=
        List.filter (fun df => negb (Nat.eqb (List.length (rows df)
                                                + List.length (columns df))%nat 0))
          objs in
      let objs := match non_empties with [] => objs | _ => non_empties end in
      let cols := union_labels (map (@columns scalar) objs) in
      Ok (mkDataFrame None None cols
            (flat_map
               (fun df =>
                  map (fun r =>
                         (fst r, map (fun c => cell_at c (columns df) (snd r)) cols))
                    (rows df))
               objs))
  end.

(** [df.columns = labels]: as many labels as columns, else [ValueError]. *)
Definition set_columns (labels : list scalar) (df : DataFrame scalar)
  : result (DataFrame scalar) :=
  if Nat.eqb (List.length labels) (List.length (columns df))
  then Ok (mkDataFrame (index_name df) (columns_name df) labels (rows df))
  else Raise ValueError.

(** [DataFrame.pivot(index=, columns=, values=)]: both axes of the result
    carry the distinct labels, ascending; a cell without entry is missing; a
    pair (index, column) met twice raises [ValueError]; an unknown label
    raises [KeyError]. *)
Definition pivot (index_label columns_label values_label : scalar)
  (df : DataFrame scalar) : result (DataFrame scalar) :=
  let cols := columns df in
  if has_label index_label cols && has_label columns_label cols
     && has_label values_label cols
  then
    let entries :=
      map (fun r => (cell_at index_label cols (snd r),
                     cell_at columns_label cols (snd r),
                     cell_at values_label cols (snd r))) (rows df) in
    let keys := map (fun e => [fst (fst e); snd (fst e)]) entries in
    if existsb (fun b => b) (duplicated [] keys)
    then Raise ValueError
    else
      let idx := sorted_unique (map (fun e => fst (fst e)) entries) in
      let cls := sorted_unique (map (fun e => snd (fst e)) entries) in
      let cell t c :=
        match find (fun e => key_eqb [fst (fst e); snd (fst e)] [t; c]) entries with
        | Some e => snd e
        | None => NaN
        end in
      Ok (mkDataFrame (Some index_label) (Some columns_label) cls
            (map (fun t => (t, map (cell t) cls)) idx))
  else Raise KeyError.

(** Lines 438 to 445 of [func_two_daily]: the frames of the groups are
    concatenated, relabelled and pivoted. *)
Definition cors_of (corrs : list (scalar * option (list (scalar * scalar))))
  : result (DataFrame scalar) :=
  let cor :=
    map (fun kv => assign (Str "code") (fst kv) (dropna (pd_DataFrame (snd kv))))
      corrs in
  cors <- pd_concat cor ;;
  cors <- set_columns [Str "date"; Str "corr"; Str "code"] cors ;;
  pivot (Str "date") (Str "code") (Str "corr") cors.

(** Line 437 of [func_two_daily]. *)
Definition corrs_of (the_func : statistic) (rolling_window : Z) (twins : list Obs)
  : result (list (scalar * option (list (scalar * scalar)))) :=
  groupby_apply (func_rolling the_func rolling_window) twins.

Definition func_two_daily (df1 df2 : DataFrame scalar) (func : statistic)
  (rolling_window : Z) : result (DataFrame scalar) :=
  let the_func := func in
  twins <- merge_many [df1; df2] None ;;
  twins <- observations twins ;;
  corrs <- corrs_of the_func rolling_window twins ;;
  cors_of corrs.

Definition corr_two_daily (corrcoef : list scalar -> list scalar -> scalar)
  (df1 df2 : DataFrame scalar) (rolling_window : Z) : result (DataFrame scalar) :=
  func_two_daily df1 df2 (corr_in corrcoef) rolling_window.

(** ** Sample tables *)

(** A statistic in the shape of [corr_in]: the timestamp of the last row of
    the window, with the first value of the first factor in the window. *)
Definition window_head : statistic :=
  fun a b c => (last c NaN, hd NaN a).

(** One entity ["A"] observed on the days 1 to [n]. *)
Definition single_entity (n : nat) : list Obs :=
  map (fun i => mkObs (Stamp (Z.of_nat i)) (Str "A")
                  (Num (Z.of_nat i)) (Num (2 * Z.of_nat i)))
    (seq 1 n).

(** Entity ["A"] with two rows on day 1. *)
Definition tied_rows : list Obs :=
  [ mkObs (Stamp 1) (Str "A") (Num 10) (Num 0);
    mkObs (Stamp 1) (Str "A") (Num 20) (Num 0);
    mkObs (Stamp 2) (Str "A") (Num 30) (Num 0) ].

Definition tied_rows_shuffled : list Obs :=
  [ mkObs (Stamp 1) (Str "A") (Num 20) (Num 0);
    mkObs (Stamp 1) (Str "A") (Num 10) (Num 0);
    mkObs (Stamp 2) (Str "A") (Num 30) (Num 0) ].

(** Entity ["A"] with a single row, entity ["B"] with three. *)
Definition short_then_long : list Obs :=
  [ mkObs (Stamp 1) (Str "A") (Num 5) (Num 0);
    mkObs (Stamp 1) (Str "B") (Num 10) (Num 0);
    mkObs (Stamp 2) (Str "B") (Num 20) (Num 0);
    mkObs (Stamp 3) (Str "B") (Num 30) (Num 0) ].

(** Two wide panels over the days 1 and 2 and the entities ["A"], ["B"]. *)
Definition panel_one : DataFrame scalar :=
  mkDataFrame (Some (Str "date")) (Some (Str "code")) [Str "A"; Str "B"]
    [ (Stamp 1, [Num 1; NaN]); (Stamp 2, [Num 3; Num 4]) ].

Definition panel_two : DataFrame scalar :=
  mkDataFrame (Some (Str "date")) (Some (Str "code")) [Str "A"; Str "B"]
    [ (Stamp 1, [Num 7; Num 8]); (Stamp 2, [NaN; Num 9]) ].

(** A panel whose index is called ["time"] and repeats day 1. *)
Definition panel_repeats : DataFrame scalar :=
  mkDataFrame (Some (Str "time")) (Some (Str "code")) [Str "A"; Str "B"]
    [ (Stamp 1, [Num 1; NaN]); (Stamp 2, [Num 3; Num 4]);
      (Stamp 1, [Num 5; Num 6]) ].

(** Two panels over the days 1 to 3: ["A"] has a value on day 1 only, ["B"]
    on all three days. *)
Definition panel_short_long : DataFrame scalar :=
  mkDataFrame (Some (Str "date")) (Some (Str "code")) [Str "A"; Str "B"]
    [ (Stamp 1, [Num 5; Num 10]); (Stamp 2, [NaN; Num 20]);
      (Stamp 3, [NaN; Num 30]) ].

Definition panel_zeros : DataFrame scalar :=
  mkDataFrame (Some (Str "date")) (Some (Str "code")) [Str "A"; Str "B"]
    [ (Stamp 1, [Num 0; Num 0]); (Stamp 2, [Num 0; Num 0]);
      (Stamp 3, [Num 0; Num 0]) ].

(** A statistic that is undefined on windows ending on day 2. *)
Definition undefined_on_day_2 : statistic :=
  fun a b c =>
    (last c NaN, if scalar_eqb (last c NaN) (Stamp 2) then NaN else hd NaN a).

(** The result rows that [dropna] keeps, each as (timestamp, value, code). *)
Definition kept_rows (corrs : list (scalar * option (list (scalar * scalar))))
  : list (scalar * scalar * scalar) :=
  flat_map
    (fun kv =>
       match snd kv with
       | None => []
       | Some arr =>
           map (fun p => (fst p, snd p, fst kv))
             (List.filter (fun p => negb (isna (fst p) || isna (snd p))) arr)
       end)
    corrs.

(** The frame that the loop of [func_two_daily] appends for one group. *)
Definition group_frame (kv : scalar * option (list (scalar * scalar)))
  : DataFrame scalar :=
  assign (Str "code") (fst kv) (dropna (pd_DataFrame (snd kv))).

(** A kept row as the three cells it has in its group frame. *)
Definition cells_of (t : scalar * scalar * scalar) : list scalar :=
  [fst (fst t); snd (fst t); snd t].

(** ** add_suffix and convert_code *)

(** [s.startswith(p)] *)
Definition startswith (s p : string) : bool := String.prefix p s.

Definition add_suffix (code : string) : string :=
  if startswith code "0" || startswith code "3" then (code ++ ".SZ")%string
  else if startswith code "6" then (code ++ ".SH")%string
  else if startswith code "8" then (code ++ ".BJ")%string
  else (code ++ ".UN")%string.

(** [s.split(sep)] for a separator of one character: the pieces between
    the separators, empty pieces included; a string without separator is its
    only piece. *)
Fixpoint split_on (sep : ascii) (s : string) : list string :=
  match s with
  | EmptyString => [EmptyString]
  | String c s' =>
      if Ascii.eqb c sep then EmptyString :: split_on sep s'
      else match split_on sep s' with
           | [] => [String c EmptyString]
           | piece :: pieces => String c piece :: pieces
           end
  end.

Definition convert_code (x : string) : result (string * string) :=
  piece <- subscript (split_on "/" x) (-1) ;;
  x1 <- subscript (split_on "." piece) 0 ;;
  piece <- subscript (split_on "/" x) (-1) ;;
  x2 <- subscript (split_on "." piece) 1 ;;
  let x2 := if String.eqb x2 "XSHE" then ".SZ"
            else if String.eqb x2 "XSHG" then ".SH"
            else x2 in
  let x := (x1 ++ x2)%string in
  c <- subscript (chars x1) 0 ;;
  if (String.eqb c "0" || String.eqb (substring 0 2 x1) "30")
     && String.eqb x2 ".SZ"
  then Ok (x, "stock")
  else
    c <- subscript (chars x1) 0 ;;
    if String.eqb c "6" && String.eqb x2 ".SH"
    then Ok (x, "stock")
    else Ok (x, "index").

(** The character occurs in the string. *)
Fixpoint has_char (c : ascii) (s : string) : bool :=
  match s with
  | EmptyString => false
  | String c' s' => Ascii.eqb c' c || has_char c s'
  end.

(** The exchange part of a converted code. *)
Definition exchange_suffix (x2 : string) : string :=
  if String.eqb x2 "XSHE" then ".SZ"
  else if String.eqb x2 "XSHG" then ".SH"
  else x2.

(** ** set_index_first and change_index_name *)

Definition set_index_first (df : DataFrame scalar) : result (DataFrame scalar) :=
  c <- first_column df ;;
  set_index c df.

Definition change_index_name (df : DataFrame scalar) (name : string)
  : result (DataFrame scalar) :=
  df <- reset_index df ;;
  df <- set_columns (Str name :: tl (columns df)) df ;;
  set_index_first df.

(** The frame with another name for its index. *)
Definition with_index_name (name : scalar) (df : DataFrame scalar)
  : DataFrame scalar :=
  mkDataFrame (Some name) (columns_name df) (columns df) (rows df).

Definition is_ok {A : Type} (r : result A) : bool :=
  match r with Ok _ => true | Raise _ => false end.

(** ** indus_name *)

(** The two columns of the table in [indus_name], paired row by row: the
    code of an industry and its name. *)
Definition industry_table : list (string * string) :=
  [
    ("801170.SI", "交通运输"); ("801010.SI", "农林牧渔");
    ("801140.SI", "轻工制造"); ("801080.SI", "电子");
    ("801780.SI", "银行"); ("801110.SI", "家用电器");
    ("801230.SI", "综合"); ("801950.SI", "煤炭");
    ("801180.SI", "房地产"); ("801040.SI", "钢铁");
    ("801740.SI", "国防军工"); ("801890.SI", "机械设备");
    ("801770.SI", "通信"); ("801960.SI", "石油石化");
    ("801200.SI", "商贸零售"); ("801120.SI", "食品饮料");
    ("801710.SI", "建筑材料"); ("801720.SI", "建筑装饰");
    ("801880.SI", "汽车"); ("801750.SI", "计算机");
    ("801050.SI", "有色金属"); ("801790.SI", "非银金融");
    ("801150.SI", "医药生物"); ("801980.SI", "美容护理");
    ("801030.SI", "基础化工"); ("801730.SI", "电力设备");
    ("801160.SI", "公用事业"); ("801130.SI", "纺织服饰");
    ("801210.SI", "社会服务"); ("801970.SI", "环保");
    ("801760.SI", "传媒")
  ].

(** [names]: the frame of the table, sorted on the codes. *)
Definition names : DataFrame scalar :=
  let cols := [Str "indus_we_cant_same"; Str "行业名称"] in
  mkDataFrame None None cols
    (sort_by (fun r => cell_at (Str "indus_we_cant_same") cols (snd r))
       (range_from 0
          (map (fun p => [Str (fst p); Str (snd p)]) industry_table))).





(** ** get_value, cells that cannot be subscripted *)

(** [x\[n\]] raises: [x] is no sequence, or [n] falls outside of it. *)
Definition out_of_reach (n : Z) (x : pyobj) : bool :=
  let outside (len : nat) := (Z.of_nat len <=? n) || (n <? - Z.of_nat len) in
  match x with
  | PyList items => outside (List.length items)
  | PyTuple items => outside (List.length items)
  | Atom (Str s) => outside (String.length s)
  | Atom _ => true
  end.

(** * Properties *)

(** ** Results and element-wise maps *)

Lemma mapM_pure (A B : Type) (f : A -> result B) (g : A -> B) (l : list A) :
  (forall a, f a = Ok (g a)) -> mapM f l = Ok (map g l).
Proof.
  intros Hf. induction l as [|a l IH]; simpl.
  - reflexivity.
  - rewrite Hf, IH. reflexivity.
Qed.

Lemma scalar_eqb_eq (a b : scalar) : scalar_eqb a b = true <-> a = b.
Proof.
  unfold scalar_eqb. destruct (scalar_eq_dec a b); split; congruence.
Qed.

Lemma scalar_eqb_refl (a : scalar) : scalar_eqb a a = true.
Proof. apply scalar_eqb_eq. reflexivity. Qed.

Lemma scalar_eqb_neq (a b : scalar) : scalar_eqb a b = false <-> a <> b.
Proof.
  unfold scalar_eqb. destruct (scalar_eq_dec a b); split; congruence.
Qed.

Lemma has_label_In (name : scalar) (cols : list scalar) :
  has_label name cols = true <-> In name cols.
Proof.
  unfold has_label. rewrite existsb_exists. split.
  - intros [x [Hin Hx]]. apply scalar_eqb_eq in Hx. subst. exact Hin.
  - intros Hin. exists name. split; [exact Hin | apply scalar_eqb_refl].
Qed.

Lemma has_label_false (name : scalar) (cols : list scalar) :
  has_label name cols = false <-> ~ In name cols.
Proof.
  rewrite <- has_label_In. destruct (has_label name cols); split; congruence.
Qed.

(** ** get_value *)

(** C10: [get_value] returns for every frame and every [n]; each cell of the
    result is the [n]-th element of the input cell when [x\[n\]] succeeds and
    [nan] when it raises; labels and shape are those of the input. *)
Theorem get_value_total (df : DataFrame pyobj) (n : Z) :
  get_value df n =
  Ok (mkDataFrame (index_name df) (columns_name df) (columns df)
        (map (fun r =>
                (fst r,
                 map (fun x => match getitem x n with
                               | Ok v => v
                               | Raise _ => Atom NaN
                               end) (snd r)))
           (rows df))).
Proof.
  unfold get_value, applymap.
  rewrite mapM_pure with
    (g := fun r : scalar * list pyobj =>
            (fst r, map (fun x => match getitem x n with
                                  | Ok v => v
                                  | Raise _ => Atom NaN
                                  end) (snd r))).
  - reflexivity.
  - intros [t cells]. simpl.
    rewrite mapM_pure with
      (g := fun x => match getitem x n with Ok v => v | Raise _ => Atom NaN end).
    + reflexivity.
    + intros x. unfold get_value_single, try_except.
      destruct (getitem x n); reflexivity.
Qed.

(** ** drop_duplicates_index *)

Section KeepFirst.

Variable A : Type.
Implicit Types (l : list (scalar * A)) (seen : list scalar).

Lemma keep_first_Subseq seen l : Subseq (keep_first seen l) l.
Proof.
  revert seen. induction l as [|r l IH]; intros seen; simpl.
  - constructor.
  - destruct (existsb (scalar_eqb (fst r)) seen); constructor; apply IH.
Qed.

Lemma keep_first_labels seen l t :
  In t (map fst (keep_first seen l)) -> In t (map fst l) /\ ~ In t seen.
Proof.
  revert seen. induction l as [|r l IH]; intros seen; simpl.
  - intros [].
  - destruct (existsb (scalar_eqb (fst r)) seen) eqn:E; simpl.
    + intros H. apply IH in H. destruct H as [H1 H2]. split.
      * right. exact H1.
      * intros Hs. apply H2. right. exact Hs.
    + intros [H | H].
      * subst t. split; [left; reflexivity |].
        apply has_label_false. exact E.
      * apply IH in H. destruct H as [H1 H2]. split.
        -- right. exact H1.
        -- intros Hs. apply H2. right. exact Hs.
Qed.

Lemma keep_first_NoDup seen l : NoDup (map fst (keep_first seen l)).
Proof.
  revert seen. induction l as [|r l IH]; intros seen; simpl.
  - constructor.
  - destruct (existsb (scalar_eqb (fst r)) seen); simpl.
    + apply IH.
    + constructor; [| apply IH].
      intros H. apply keep_first_labels in H. destruct H as [_ H].
      apply H. left. reflexivity.
Qed.

Lemma first_at_seen seen l t :
  In t seen -> first_at t (keep_first seen l) = None.
Proof.
  intros Hs. destruct (first_at t (keep_first seen l)) as [r|] eqn:E;
    [| reflexivity].
  unfold first_at in E. apply find_some in E. destruct E as [Hin Ht].
  apply scalar_eqb_eq in Ht. subst t.
  apply (in_map fst) in Hin. apply keep_first_labels in Hin.
  destruct Hin as [_ Hn]. contradiction.
Qed.

Lemma keep_first_first_at seen l t :
  ~ In t seen -> first_at t (keep_first seen l) = first_at t l.
Proof.
  unfold first_at.
  revert seen. induction l as [|r l IH]; intros seen Hs; simpl.
  - reflexivity.
  - destruct (existsb (scalar_eqb (fst r)) seen) eqn:E.
    + assert (Hr : fst r <> t).
      { intros <-. apply Hs. apply has_label_In. exact E. }
      apply scalar_eqb_neq in Hr. rewrite Hr.
      apply IH. intros [H | H]; [| contradiction].
      apply scalar_eqb_neq in Hr. contradiction.
    + simpl. destruct (scalar_eqb (fst r) t) eqn:Et; [reflexivity |].
      apply IH. intros [H | H]; [| contradiction].
      apply scalar_eqb_neq in Et. contradiction.
Qed.

Lemma keep_first_fixed seen l :
  NoDup (map fst l) -> (forall t, In t (map fst l) -> ~ In t seen) ->
  keep_first seen l = l.
Proof.
  revert seen. induction l as [|r l IH]; intros seen Hn Hd; simpl.
  - reflexivity.
  - inversion Hn as [|x xs Hx Hn']; subst.
    assert (E : existsb (scalar_eqb (fst r)) seen = false).
    { apply has_label_false. apply Hd. left. reflexivity. }
    rewrite E. f_equal. apply IH; [exact Hn' |].
    intros t Ht [H | H].
    + subst t. contradiction.
    + apply (Hd t); [right; exact Ht | exact H].
Qed.

Lemma keep_first_idem l :
  keep_first [] (keep_first [] l) = keep_first [] l.
Proof.
  apply keep_first_fixed.
  - apply keep_first_NoDup.
  - intros t _ [].
Qed.

End KeepFirst.

Lemma under_absent (C : Type) (name : scalar) (cols : list scalar) (cells : list C) :
  ~ In name cols -> under name cols cells = [].
Proof.
  revert cells. induction cols as [|c cols IH]; intros cells Hn; simpl.
  - reflexivity.
  - destruct cells as [|x cells]; [reflexivity |].
    assert (Hc : c <> name) by (intros ->; apply Hn; left; reflexivity).
    apply scalar_eqb_neq in Hc. rewrite Hc.
    apply IH. intros H. apply Hn. right. exact H.
Qed.

Lemma without_absent (C : Type) (name : scalar) (cols : list scalar) (cells : list C) :
  ~ In name cols -> without name cols cells = cells.
Proof.
  revert cells. induction cols as [|c cols IH]; intros cells Hn; simpl.
  - destruct cells; reflexivity.
  - destruct cells as [|x cells]; [reflexivity |].
    assert (Hc : c <> name) by (intros ->; apply Hn; left; reflexivity).
    apply scalar_eqb_neq in Hc. rewrite Hc.
    f_equal. apply IH. intros H. apply Hn. right. exact H.
Qed.

Lemma rename_absent (old new : scalar) (cols : list scalar) :
  ~ In old cols ->
  map (fun c => if scalar_eqb c old then new else c) cols = cols.
Proof.
  induction cols as [|c cols IH]; intros Hn; simpl.
  - reflexivity.
  - assert (Hc : c <> old) by (intros ->; apply Hn; left; reflexivity).
    apply scalar_eqb_neq in Hc. rewrite Hc.
    f_equal. apply IH. intros H. apply Hn. right. exact H.
Qed.

Lemma filter_absent (name : scalar) (cols : list scalar) :
  ~ In name cols ->
  List.filter (scalar_eqb name) cols = []
  /\ List.filter (fun c => negb (scalar_eqb c name)) cols = cols.
Proof.
  induction cols as [|c cols IH]; intros Hn; simpl.
  - split; reflexivity.
  - assert (Hc : name <> c) by (intros ->; apply Hn; left; reflexivity).
    assert (Hc' : c <> name) by congruence.
    apply scalar_eqb_neq in Hc. apply scalar_eqb_neq in Hc'.
    rewrite Hc, Hc'. simpl.
    destruct IH as [IH1 IH2]; [intros H; apply Hn; right; exact H |].
    rewrite IH1, IH2. split; reflexivity.
Qed.

Lemma seen_keys (t : scalar) (seen : list scalar) :
  existsb (key_eqb [t]) (map (fun s => [s]) seen)
  = existsb (scalar_eqb t) seen.
Proof.
  induction seen as [|s seen IH]; simpl.
  - reflexivity.
  - rewrite IH. f_equal.
    unfold key_eqb, scalar_eqb.
    destruct (list_eq_dec scalar_eq_dec [t] [s]) as [E | E];
      destruct (scalar_eq_dec t s) as [E' | E']; try reflexivity.
    + inversion E. contradiction.
    + subst. contradiction.
Qed.

(** Between [reset_index] and [set_index]: on a frame whose first column is
    the only one labelled [name], masking the later rows of each key and
    moving the column back leaves the first row of every index label. *)
Lemma select_keep_first (name : scalar) (cols : list scalar)
  (body : list (scalar * list scalar)) :
  ~ In name cols ->
  forall (seen : list scalar) (start : Z),
    map (fun r => (hd NaN (under name (name :: cols) (snd r)),
                   without name (name :: cols) (snd r)))
      (select
         (map negb
            (duplicated (map (fun s => [s]) seen)
               (map (fun r => under name (name :: cols) (snd r))
                  (range_from start (map (fun r => fst r :: snd r) body)))))
         (range_from start (map (fun r => fst r :: snd r) body)))
    = keep_first seen body.
Proof.
  intros Hn.
  assert (HK : forall t (cells : list scalar),
             under name (name :: cols) (t :: cells) = [t]).
  { intros t cells. simpl. rewrite scalar_eqb_refl.
    rewrite under_absent by exact Hn. reflexivity. }
  assert (HW : forall t (cells : list scalar),
             without name (name :: cols) (t :: cells) = cells).
  { intros t cells. simpl. rewrite scalar_eqb_refl.
    apply without_absent. exact Hn. }
  induction body as [|[t cells] body IH]; intros seen start.
  - reflexivity.
  - cbn [map range_from fst snd duplicated select keep_first].
    rewrite HK, seen_keys.
    specialize (IH (t :: seen) (start + 1)). cbn [map] in IH.
    destruct (existsb (scalar_eqb t) seen); cbn [negb map fst snd].
    + exact IH.
    + rewrite HK, HW. cbn [hd]. f_equal. exact IH.
Qed.

(** What [drop_duplicates_index] does, case by case. *)
Lemma drop_duplicates_index_cases (new : DataFrame scalar) :
  drop_duplicates_index new =
  if labels_free new
  then Ok (mkDataFrame (Some (Str "date")) (columns_name new) (columns new)
             (keep_first [] (rows new)))
  else Raise ValueError.
Proof.
  unfold drop_duplicates_index, labels_free, reset_index.
  destruct (has_label (reset_name new) (columns new)) eqn:E1; simpl.
  - reflexivity.
  - apply has_label_false in E1.
    unfold rename_columns, drop_duplicates, set_index. simpl.
    rewrite scalar_eqb_refl. simpl.
    rewrite rename_absent by exact E1. simpl.
    destruct (has_label (Str "date") (columns new)) eqn:E2; simpl.
    + apply has_label_In in E2.
      destruct (List.filter (scalar_eqb (Str "date")) (columns new))
        as [|c rest] eqn:F.
      * exfalso.
        assert (H : In (Str "date")
                      (List.filter (scalar_eqb (Str "date")) (columns new))).
        { apply filter_In. split; [exact E2 | apply scalar_eqb_refl]. }
        rewrite F in H. destruct H.
      * reflexivity.
    + apply has_label_false in E2.
      destruct (@filter_absent (Str "date") (columns new) E2) as [F1 F2].
      rewrite F1, F2. do 2 f_equal.
      apply (@select_keep_first (Str "date") (columns new) (rows new) E2 [] 0).
Qed.

(** C6: among the rows that share an index label, [drop_duplicates_index]
    keeps the first one in row order and drops the others; the columns keep
    their order and the kept rows their relative order. *)
Theorem drop_duplicates_index_keeps_first (new : DataFrame scalar) :
  labels_free new = true ->
  exists out,
    drop_duplicates_index new = Ok out
    /\ columns out = columns new
    /\ Subseq (rows out) (rows new)
    /\ NoDup (index out)
    /\ forall t, first_at t (rows out) = first_at t (rows new).
Proof.
  intros Hfree. rewrite drop_duplicates_index_cases, Hfree.
  eexists. split; [reflexivity |]. simpl. repeat split.
  - apply keep_first_Subseq.
  - apply keep_first_NoDup.
  - intros t. apply keep_first_first_at. intros [].
Qed.

Lemma drop_duplicates_index_keeps_first_witness :
  labels_free panel_repeats = true
  /\ exists out,
       drop_duplicates_index panel_repeats = Ok out
       /\ columns out = columns panel_repeats
       /\ Subseq (rows out) (rows panel_repeats)
       /\ NoDup (index out)
       /\ forall t, first_at t (rows out) = first_at t (rows panel_repeats).
Proof.
  split.
  - reflexivity.
  - apply (drop_duplicates_index_keeps_first panel_repeats). reflexivity.
Defined.

(** C7: running [drop_duplicates_index] on its own result gives that result
    again. *)
Theorem drop_duplicates_index_idempotent (new : DataFrame scalar) :
  (out <- drop_duplicates_index new ;; drop_duplicates_index out)
  = drop_duplicates_index new.
Proof.
  rewrite (drop_duplicates_index_cases new).
  destruct (labels_free new) eqn:Hfree; simpl; [| reflexivity].
  rewrite drop_duplicates_index_cases.
  unfold labels_free in *.
  apply andb_true_iff in Hfree. destruct Hfree as [_ Hdate].
  unfold reset_name. simpl. rewrite Hdate. simpl.
  rewrite keep_first_idem. reflexivity.
Qed.

(** C8: on a frame whose index has no repeated label,
    [drop_duplicates_index] gives back the same columns and the same rows
    with the same labels; when the index is already called ["date"] the
    result is the input itself. *)
Theorem drop_duplicates_index_no_duplicates (new : DataFrame scalar) :
  labels_free new = true ->
  NoDup (index new) ->
  drop_duplicates_index new
  = Ok (mkDataFrame (Some (Str "date")) (columns_name new) (columns new) (rows new))
  /\ (index_name new = Some (Str "date") -> drop_duplicates_index new = Ok new).
Proof.
  intros Hfree Hnodup.
  assert (H : drop_duplicates_index new
              = Ok (mkDataFrame (Some (Str "date")) (columns_name new)
                      (columns new) (rows new))).
  { rewrite drop_duplicates_index_cases, Hfree.
    rewrite keep_first_fixed; [reflexivity | exact Hnodup |].
    intros t _ []. }
  split; [exact H |].
  intros Hname. rewrite H. destruct new as [iname cname cols body].
  simpl in *. rewrite Hname. reflexivity.
Qed.

Lemma drop_duplicates_index_no_duplicates_witness :
  labels_free panel_one = true
  /\ NoDup (index panel_one)
  /\ drop_duplicates_index panel_one
     = Ok (mkDataFrame (Some (Str "date")) (columns_name panel_one)
             (columns panel_one) (rows panel_one))
  /\ (index_name panel_one = Some (Str "date") ->
      drop_duplicates_index panel_one = Ok panel_one).
Proof.
  assert (Hfree : labels_free panel_one = true) by reflexivity.
  assert (Hnodup : NoDup (index panel_one)).
  { repeat constructor; simpl; intros H;
      repeat (destruct H as [H | H]; try discriminate H); exact H. }
  split; [exact Hfree |]. split; [exact Hnodup |].
  apply (drop_duplicates_index_no_duplicates panel_one Hfree Hnodup).
Defined.

(** C9: whatever the index of the input is called, the index of the frame
    that [drop_duplicates_index] returns is called ["date"]; the only inputs
    it does not return on are those where a data column already carries the
    label of the index or the label ["date"]. *)
Theorem drop_duplicates_index_names_date (new : DataFrame scalar) :
  match drop_duplicates_index new with
  | Ok out => index_name out = Some (Str "date") /\ labels_free new = true
  | Raise _ => labels_free new = false
  end.
Proof.
  rewrite drop_duplicates_index_cases.
  destruct (labels_free new); simpl; [split |]; reflexivity.
Qed.

(** ** The order of labels *)

Lemma string_leb_iff (s t : string) :
  String.leb s t = true <-> String_as_OT.lt s t \/ s = t.
Proof.
  unfold String.leb. destruct (String.compare s t) eqn:E.
  - apply String.compare_eq_iff in E. split; auto.
  - split; auto. intros _. left. apply String_as_OT.cmp_lt. exact E.
  - split; [discriminate |]. intros [H | H].
    + apply String_as_OT.cmp_lt in H. unfold String_as_OT.cmp in H. congruence.
    + apply String_as_OT.cmp_eq in H. unfold String_as_OT.cmp in H. congruence.
Qed.

Lemma string_leb_trans (s t u : string) :
  String.leb s t = true -> String.leb t u = true -> String.leb s u = true.
Proof.
  rewrite !string_leb_iff. intros [H1 | H1] [H2 | H2]; subst; auto.
  left. eapply String_as_OT.lt_trans; eassumption.
Qed.

Lemma scalar_leb_total (a b : scalar) :
  scalar_leb a b = true \/ scalar_leb b a = true.
Proof.
  destruct a, b; simpl; try (left; reflexivity); try (right; reflexivity);
    try apply String.leb_total; rewrite !Z.leb_le; lia.
Qed.

Lemma scalar_leb_antisym (a b : scalar) :
  scalar_leb a b = true -> scalar_leb b a = true -> a = b.
Proof.
  destruct a, b; simpl; try discriminate; try reflexivity.
  - rewrite !Z.leb_le. intros. f_equal. lia.
  - intros H1 H2. f_equal. apply String.leb_antisym; assumption.
  - rewrite !Z.leb_le. intros. f_equal. lia.
Qed.

Lemma scalar_leb_trans (a b c : scalar) :
  scalar_leb a b = true -> scalar_leb b c = true -> scalar_leb a c = true.
Proof.
  destruct a, b, c; simpl; try discriminate; try reflexivity;
    try apply string_leb_trans; rewrite ?Z.leb_le; lia.
Qed.

(** ** Sorting on a key *)

Section SortByFacts.

Variable A : Type.
Variable key : A -> scalar.

Lemma insert_by_Permutation (x : A) (l : list A) :
  Permutation (insert_by key x l) (x :: l).
Proof.
  induction l as [|y l IH]; simpl.
  - apply Permutation_refl.
  - destruct (scalar_leb (key x) (key y)).
    + apply Permutation_refl.
    + eapply perm_trans; [apply perm_skip; exact IH | apply perm_swap].
Qed.

Lemma sort_by_Permutation (l : list A) : Permutation (sort_by key l) l.
Proof.
  induction l as [|x l IH]; simpl.
  - apply perm_nil.
  - eapply perm_trans; [apply insert_by_Permutation |].
    apply perm_skip. exact IH.
Qed.

Lemma sort_by_length (l : list A) : List.length (sort_by key l) = List.length l.
Proof. apply Permutation_length, sort_by_Permutation. Qed.

Lemma insert_by_sorted (x : A) (l : list A) :
  StronglySorted (key_le key) l -> StronglySorted (key_le key) (insert_by key x l).
Proof.
  induction l as [|y l IH]; intros Hs; simpl.
  - repeat constructor.
  - inversion Hs as [|y' l' Hl Hy]; subst.
    destruct (scalar_leb (key x) (key y)) eqn:E.
    + constructor; [exact Hs |]. constructor; [exact E |].
      apply Forall_forall. intros z Hz.
      rewrite Forall_forall in Hy. unfold key_le in *.
      eapply scalar_leb_trans; [exact E | apply Hy; exact Hz].
    + constructor; [apply IH; exact Hl |].
      apply Forall_forall. intros z Hz.
      apply (Permutation_in _ (insert_by_Permutation x l)) in Hz.
      destruct Hz as [Hz | Hz].
      * subst z. unfold key_le.
        destruct (scalar_leb_total (key x) (key y)) as [H | H];
          [congruence | exact H].
      * rewrite Forall_forall in Hy. apply Hy. exact Hz.
Qed.

Lemma sort_by_sorted (l : list A) : StronglySorted (key_le key) (sort_by key l).
Proof.
  induction l as [|x l IH]; simpl.
  - constructor.
  - apply insert_by_sorted. exact IH.
Qed.

(** Two ascending arrangements of the same rows are the same list when no
    two rows share a key. *)
Lemma sorted_Permutation_eq (l1 l2 : list A) :
  StronglySorted (key_le key) l1 -> StronglySorted (key_le key) l2 ->
  Permutation l1 l2 -> NoDup (map key l1) -> l1 = l2.
Proof.
  revert l2. induction l1 as [|x l1 IH]; intros l2 H1 H2 Hp Hn.
  - apply Permutation_nil in Hp. congruence.
  - destruct l2 as [|y l2].
    { apply Permutation_sym, Permutation_nil in Hp. discriminate. }
    inversion H1 as [|x' l1' Hs1 Hx]; subst.
    inversion H2 as [|y' l2' Hs2 Hy]; subst.
    inversion Hn as [|k ks Hk Hn']; subst.
    rewrite Forall_forall in Hx, Hy.
    assert (Exy : x = y).
    { assert (Hin : In x (y :: l2)).
      { apply (Permutation_in _ Hp). left. reflexivity. }
      destruct Hin as [Hin | Hin]; [congruence |].
      assert (Hin' : In y (x :: l1)).
      { apply (Permutation_in _ (Permutation_sym Hp)). left. reflexivity. }
      destruct Hin' as [Hin' | Hin']; [exact Hin' |].
      exfalso. apply Hk.
      assert (Ek : key x = key y).
      { apply scalar_leb_antisym; [apply Hx | apply Hy]; assumption. }
      rewrite Ek. apply in_map. exact Hin'. }
    subst y. f_equal.
    apply IH; try assumption.
    apply Permutation_cons_inv with (a := x). exact Hp.
Qed.

Lemma sort_by_Permutation_eq (l1 l2 : list A) :
  Permutation l1 l2 -> NoDup (map key l1) -> sort_by key l1 = sort_by key l2.
Proof.
  intros Hp Hn. apply sorted_Permutation_eq.
  - apply sort_by_sorted.
  - apply sort_by_sorted.
  - eapply perm_trans; [apply sort_by_Permutation |].
    eapply perm_trans; [exact Hp |].
    apply Permutation_sym, sort_by_Permutation.
  - eapply Permutation_NoDup; [| exact Hn].
    apply Permutation_map, Permutation_sym, sort_by_Permutation.
Qed.

End SortByFacts.

Lemma filter_Permutation (A : Type) (p : A -> bool) (l1 l2 : list A) :
  Permutation l1 l2 -> Permutation (List.filter p l1) (List.filter p l2).
Proof.
  induction 1 as [| x l1 l2 _ IH | x y l | l1 l2 l3 _ IH1 _ IH2]; simpl.
  - apply perm_nil.
  - destruct (p x); [apply perm_skip |]; exact IH.
  - destruct (p x), (p y); try apply Permutation_refl. apply perm_swap.
  - eapply perm_trans; eassumption.
Qed.

Lemma sorted_unique_Permutation (l1 l2 : list scalar) :
  Permutation l1 l2 -> sorted_unique l1 = sorted_unique l2.
Proof.
  intros Hp. unfold sorted_unique. apply sort_by_Permutation_eq.
  - apply NoDup_Permutation; try apply NoDup_nodup.
    intros x. rewrite !nodup_In. split; apply Permutation_in;
      [exact Hp | apply Permutation_sym; exact Hp].
  - rewrite map_id. apply NoDup_nodup.
Qed.

Lemma sorted_unique_In (l : list scalar) (x : scalar) :
  In x (sorted_unique l) <-> In x l.
Proof.
  unfold sorted_unique. split; intros H.
  - apply (Permutation_in _ (sort_by_Permutation _ _)) in H.
    apply nodup_In in H. exact H.
  - apply (Permutation_in _ (Permutation_sym (sort_by_Permutation _ _))).
    apply nodup_In. exact H.
Qed.

Lemma mapM_ext (A B : Type) (f g : A -> result B) (l : list A) :
  (forall a, In a l -> f a = g a) -> mapM f l = mapM g l.
Proof.
  induction l as [|a l IH]; intros H; simpl.
  - reflexivity.
  - rewrite (H a) by (left; reflexivity).
    rewrite IH by (intros b Hb; apply H; right; exact Hb). reflexivity.
Qed.

(** ** func_rolling *)


Lemma filter_range_from (A : Type) (p : A -> bool) (start : Z) (l : list A) :
  map snd (List.filter (fun r => p (snd r)) (range_from start l))
  = List.filter p l.
Proof.
  revert start. induction l as [|a l IH]; intros start; simpl.
  - reflexivity.
  - destruct (p a); simpl; rewrite IH; reflexivity.
Qed.

Lemma filter_padding (n : nat) :
  List.filter (fun cells => negb (existsb isna cells))
    (map (fun p : scalar * scalar => [fst p; snd p]) (repeat (NaN, NaN) n))
  = [].
Proof.
  induction n as [|n IH]; simpl.
  - reflexivity.
  - exact IH.
Qed.

Lemma func_rolling_sorted (the_func : statistic) (w : Z) (df1 df2 : list Obs) :
  sort_by date df1 = sort_by date df2 ->
  func_rolling the_func w df1 = func_rolling the_func w df2.
Proof.
  intros H. unfold func_rolling. rewrite H. reflexivity.
Qed.

Lemma func_rolling_nonpositive (the_func : statistic) (w : Z) (df : list Obs) :
  w <= 0 -> df <> [] -> func_rolling the_func w df = Raise IndexError.
Proof.
  intros Hw Hdf. unfold func_rolling, npext_rolling_apply.
  rewrite !length_map, sort_by_length.
  assert (Hk : (0 < List.length df)%nat).
  { destruct df; [congruence | simpl; lia]. }
  replace (Z.of_nat (List.length df) >? w) with true
    by (symmetry; apply Z.gtb_lt; lia).
  rewrite Nat.eqb_refl. simpl.
  replace (Z.of_nat (List.length df) <? w) with false
    by (symmetry; apply Z.ltb_ge; lia).
  replace (w <=? 0) with true by (symmetry; apply Z.leb_le; lia).
  reflexivity.
Qed.

Lemma last_firstn (A : Type) (w : nat) (l : list A) (d : A) :
  (w < List.length l)%nat -> last (firstn (S w) l) d = nth w l d.
Proof.
  revert l. induction w as [|w IH]; intros l Hl.
  - destruct l as [|a l]; [simpl in Hl; lia | reflexivity].
  - destruct l as [|a l]; [simpl in Hl; lia |].
    simpl in Hl. specialize (IH l ltac:(lia)).
    change (firstn (S (S w)) (a :: l)) with (a :: firstn (S w) l).
    change (nth (S w) (a :: l) d) with (nth w l d).
    rewrite <- IH. destruct l as [|b l]; [simpl in Hl; lia |]. reflexivity.
Qed.

(** The last row of the window that starts at row [s] (counted from 0) is
    row [s + w - 1]. *)
Lemma slice_last (A : Type) (s w : nat) (l : list A) (d : A) :
  (0 < w)%nat -> (s + w <= List.length l)%nat ->
  last (slice s w l) d = nth (s + w - 1) l d.
Proof.
  intros Hw Hl. unfold slice. destruct w as [|w]; [lia |].
  rewrite last_firstn by (rewrite length_skipn; lia).
  rewrite nth_skipn. f_equal. lia.
Qed.

(** With [corr_in], the result of the window that starts at row [s] carries
    the date of row [s + w - 1] of the sorted group: the first result is
    stamped by row [w] of the time axis (counted from 1), the last by row
    [k]. *)
Lemma corr_in_stamp (corrcoef : list scalar -> list scalar -> scalar)
  (s w : nat) (df : list Obs) :
  (0 < w)%nat -> (s + w <= List.length df)%nat ->
  fst (corr_in corrcoef
         (slice s w (map fac1 (sort_by date df)))
         (slice s w (map fac2 (sort_by date df)))
         (slice s w (map date (sort_by date df))))
  = nth (s + w - 1) (map date (sort_by date df)) NaN.
Proof.
  intros Hw Hl. unfold corr_in. simpl.
  apply slice_last; [exact Hw |].
  rewrite length_map, sort_by_length. exact Hl.
Qed.

(** C1 (amended): for a group of [k] rows and a window [w] of at least 1,
    [func_rolling] gives nothing when [k <= w]; when [k > w] it gives [w - 1]
    rows of [nan] followed by [k - w + 1] results, one for each slice of [w]
    consecutive rows of the group sorted by date, and the rows of [nan] are
    the ones [dropna] removes besides the results that are missing
    themselves. *)
Theorem func_rolling_rows (the_func : statistic) (w : Z) (df : list Obs) :
  1 <= w ->
  let k := Z.of_nat (List.length df) in
  let sorted := sort_by date df in
  let results :=
    map (fun s => the_func (slice s (Z.to_nat w) (map fac1 sorted))
                    (slice s (Z.to_nat w) (map fac2 sorted))
                    (slice s (Z.to_nat w) (map date sorted)))
      (seq 0 (Z.to_nat (k - w + 1))) in
  let arr := repeat (NaN, NaN) (Z.to_nat (w - 1)) ++ results in
  (k <= w -> func_rolling the_func w df = Ok None)
  /\ (w < k ->
      func_rolling the_func w df = Ok (Some arr)
      /\ Z.of_nat (List.length results) = k - w + 1
      /\ map snd (rows (dropna (pd_DataFrame (Some arr))))
         = map (fun p => [fst p; snd p])
             (List.filter (fun p => negb (isna (fst p) || isna (snd p)))
                results)).
Proof.
  intros Hw k sorted results arr. split.
  - intros Hk. unfold func_rolling. rewrite sort_by_length.
    replace (Z.of_nat (List.length df) >? w) with false; [reflexivity |].
    symmetry. rewrite Z.gtb_ltb. apply Z.ltb_ge. exact Hk.
  - intros Hk. split; [| split].
    + unfold func_rolling, npext_rolling_apply.
      rewrite !length_map, sort_by_length. fold k.
      replace (k >? w) with true by (symmetry; apply Z.gtb_lt; lia).
      rewrite Nat.eqb_refl. simpl.
      replace (k <? w) with false by (symmetry; apply Z.ltb_ge; lia).
      replace (w <=? 0) with false by (symmetry; apply Z.leb_gt; lia).
      unfold prepend_na, arr, results, sorted. simpl.
      replace (List.length df - (Z.to_nat w - 1))%nat
        with (Z.to_nat (k - w + 1)) by (unfold k; lia).
      replace (Z.to_nat w - 1)%nat with (Z.to_nat (w - 1)) by lia.
      reflexivity.
    + unfold results. rewrite length_map, length_seq. lia.
    + unfold dropna, pd_DataFrame. simpl.
      rewrite (filter_range_from (fun cells => negb (existsb isna cells))).
      unfold arr. rewrite map_app, filter_app, filter_padding. simpl.
      induction results as [|p ps IH]; simpl.
      * reflexivity.
      * rewrite orb_false_r.
        destruct (isna (fst p) || isna (snd p)); simpl; rewrite IH; reflexivity.
Qed.

Lemma func_rolling_rows_witness :
  1 <= 20
  /\ let the_func := window_head in
     let w := 20 in
     let df := single_entity 25 in
     let k := Z.of_nat (List.length df) in
     let sorted := sort_by date df in
     let results :=
       map (fun s => the_func (slice s (Z.to_nat w) (map fac1 sorted))
                       (slice s (Z.to_nat w) (map fac2 sorted))
                       (slice s (Z.to_nat w) (map date sorted)))
         (seq 0 (Z.to_nat (k - w + 1))) in
     let arr := repeat (NaN, NaN) (Z.to_nat (w - 1)) ++ results in
     (k <= w -> func_rolling the_func w df = Ok None)
     /\ (w < k ->
         func_rolling the_func w df = Ok (Some arr)
         /\ Z.of_nat (List.length results) = k - w + 1
         /\ map snd (rows (dropna (pd_DataFrame (Some arr))))
            = map (fun p => [fst p; snd p])
                (List.filter (fun p => negb (isna (fst p) || isna (snd p)))
                   results)).
Proof.
  split.
  - lia.
  - apply (func_rolling_rows window_head (w := 20) (single_entity 25)). lia.
Defined.

(** C1 as stated fails: 25 rows of one entity and a window of 20 give six
    result rows, stamped with the days 20 to 25, not the five rows of the
    days 21 to 25. *)
Lemma func_rolling_25_20_six_rows :
  (arr <- func_rolling window_head 20 (single_entity 25) ;;
   Ok (map snd (rows (dropna (pd_DataFrame arr)))))
  = Ok [ [Stamp 20; Num 1]; [Stamp 21; Num 2]; [Stamp 22; Num 3];
         [Stamp 23; Num 4]; [Stamp 24; Num 5]; [Stamp 25; Num 6] ]
  /\ ~ (exists out,
          (arr <- func_rolling window_head 20 (single_entity 25) ;;
           Ok (map snd (rows (dropna (pd_DataFrame arr))))) = Ok out
          /\ List.length out = (25 - 20)%nat).
Proof.
  split.
  - vm_compute. reflexivity.
  - intros [out [H Hlen]]. vm_compute in H. inversion H. subst out.
    simpl in Hlen. discriminate Hlen.
Qed.

(** ** groupby and the rolling stage *)

Lemma group_keys_Permutation (t1 t2 : list Obs) :
  Permutation t1 t2 -> group_keys t1 = group_keys t2.
Proof.
  intros Hp. unfold group_keys.
  apply sorted_unique_Permutation, filter_Permutation, Permutation_map.
  exact Hp.
Qed.

Lemma group_keys_member (twins : list Obs) (k : scalar) :
  In k (group_keys twins) -> exists o, In o twins /\ code o = k.
Proof.
  unfold group_keys. intros H.
  apply sorted_unique_In, filter_In in H. destruct H as [H _].
  apply in_map_iff in H. destruct H as [o [Ho Hin]].
  exists o. split; assumption.
Qed.

Lemma group_dates_NoDup (twins : list Obs) (k : scalar) :
  NoDup (map (fun o => (date o, code o)) twins) ->
  NoDup (map date (List.filter (fun o => scalar_eqb (code o) k) twins)).
Proof.
  induction twins as [|o twins IH]; intros Hn; simpl.
  - constructor.
  - inversion Hn as [|x xs Hx Hn']; subst.
    destruct (scalar_eqb (code o) k) eqn:E; [| apply IH; exact Hn'].
    simpl. constructor; [| apply IH; exact Hn'].
    intros Hin. apply in_map_iff in Hin. destruct Hin as [o' [Hd Ho']].
    apply filter_In in Ho'. destruct Ho' as [Ho' Hc].
    apply Hx. apply in_map_iff. exists o'. split; [| exact Ho'].
    apply scalar_eqb_eq in E. apply scalar_eqb_eq in Hc. congruence.
Qed.

(** C3 (amended): when no entity has two rows with the same timestamp,
    reordering the rows of the joined table does not change what the rolling
    stage returns: every group is sorted by date before the statistic sees
    it. *)
Theorem corrs_of_Permutation (the_func : statistic) (w : Z) (t1 t2 : list Obs) :
  Permutation t1 t2 ->
  NoDup (map (fun o => (date o, code o)) t1) ->
  corrs_of the_func w t1 = corrs_of the_func w t2.
Proof.
  intros Hp Hn. unfold corrs_of, groupby_apply.
  rewrite <- (group_keys_Permutation Hp).
  rewrite (mapM_ext
             (fun k =>
                v <- func_rolling the_func w
                       (List.filter (fun o => scalar_eqb (code o) k) t1) ;;
                Ok (k, v))
             (fun k =>
                v <- func_rolling the_func w
                       (List.filter (fun o => scalar_eqb (code o) k) t2) ;;
                Ok (k, v))).
  - reflexivity.
  - intros k _.
    rewrite (@func_rolling_sorted the_func w
               (List.filter (fun o => scalar_eqb (code o) k) t1)
               (List.filter (fun o => scalar_eqb (code o) k) t2)).
    + reflexivity.
    + apply sort_by_Permutation_eq.
      * apply filter_Permutation. exact Hp.
      * apply group_dates_NoDup. exact Hn.
Qed.

Lemma corrs_of_Permutation_witness :
  Permutation (single_entity 3) (rev (single_entity 3))
  /\ NoDup (map (fun o => (date o, code o)) (single_entity 3))
  /\ corrs_of window_head 2 (single_entity 3)
     = corrs_of window_head 2 (rev (single_entity 3)).
Proof.
  assert (Hp : Permutation (single_entity 3) (rev (single_entity 3))).
  { apply Permutation_rev. }
  assert (Hn : NoDup (map (fun o => (date o, code o)) (single_entity 3))).
  { repeat constructor; simpl; intros H;
      repeat (destruct H as [H | H]; try discriminate H); exact H. }
  split; [exact Hp |]. split; [exact Hn |].
  apply (corrs_of_Permutation window_head 2 Hp Hn).
Defined.

(** C3 as stated fails: with two rows of one entity on the same day, the
    sort leaves them in the order of the input, and the shuffled table gives
    other results, also in the final panel. *)
Lemma corrs_of_tied_rows_differ :
  Permutation tied_rows tied_rows_shuffled
  /\ corrs_of window_head 2 tied_rows
     = Ok [ (Str "A", Some [ (NaN, NaN); (Stamp 1, Num 10); (Stamp 2, Num 20) ]) ]
  /\ corrs_of window_head 2 tied_rows_shuffled
     = Ok [ (Str "A", Some [ (NaN, NaN); (Stamp 1, Num 20); (Stamp 2, Num 10) ]) ]
  /\ corrs_of window_head 2 tied_rows <> corrs_of window_head 2 tied_rows_shuffled
  /\ (corrs <- corrs_of window_head 2 tied_rows ;; cors_of corrs)
     <> (corrs <- corrs_of window_head 2 tied_rows_shuffled ;; cors_of corrs).
Proof.
  split; [apply perm_swap |].
  split; [vm_compute; reflexivity |].
  split; [vm_compute; reflexivity |].
  split; vm_compute; intros H; discriminate H.
Qed.

(** C5 (amended): [func_two_daily] does not check the window and raises no
    [InvalidWindow].  With a window of 0 or less every group passes the test
    on its size and reaches [rolling_apply], which fails with [IndexError];
    a table without groups gives the empty result. *)
Theorem corrs_of_nonpositive_window (the_func : statistic) (w : Z) (twins : list Obs) :
  w <= 0 ->
  corrs_of the_func w twins
  = match group_keys twins with
    | [] => Ok []
    | _ :: _ => Raise IndexError
    end
  /\ corrs_of the_func w twins <> Raise (Exn "InvalidWindow").
Proof.
  intros Hw.
  assert (H : corrs_of the_func w twins
              = match group_keys twins with
                | [] => Ok []
                | _ :: _ => Raise IndexError
                end).
  { unfold corrs_of, groupby_apply.
    destruct (group_keys twins) as [|k ks] eqn:E; [reflexivity |].
    simpl. rewrite func_rolling_nonpositive; [reflexivity | exact Hw |].
    destruct (@group_keys_member twins k) as [o [Ho Hc]].
    { rewrite E. left. reflexivity. }
    intros Hnil.
    assert (Hin : In o (List.filter (fun o => scalar_eqb (code o) k) twins)).
    { apply filter_In. split; [exact Ho | apply scalar_eqb_eq; exact Hc]. }
    rewrite Hnil in Hin. destruct Hin. }
  split; [exact H |].
  rewrite H. destruct (group_keys twins); discriminate.
Qed.

Lemma corrs_of_nonpositive_window_witness :
  0 <= 0
  /\ corrs_of window_head 0 (single_entity 3)
     = match group_keys (single_entity 3) with
       | [] => Ok []
       | _ :: _ => Raise IndexError
       end
  /\ corrs_of window_head 0 (single_entity 3) <> Raise (Exn "InvalidWindow").
Proof.
  split.
  - lia.
  - apply (corrs_of_nonpositive_window window_head (w := 0) (single_entity 3)).
    lia.
Defined.

(** C5 as stated fails: a window of 0 over three rows of one entity ends in
    the [IndexError] of the library, not in [InvalidWindow]; over a table
    without rows nothing is raised at all. *)
Lemma corrs_of_window_zero :
  corrs_of window_head 0 (single_entity 3) = Raise IndexError
  /\ corrs_of window_head 0 (single_entity 3) <> Raise (Exn "InvalidWindow")
  /\ corrs_of window_head 0 [] = Ok [].
Proof.
  split; [vm_compute; reflexivity |].
  split; [vm_compute; intros H; discriminate H |].
  vm_compute. reflexivity.
Qed.

(** ** merge_many *)

Lemma merge_many_raises (dfs : list (DataFrame scalar)) (names : option (list string)) :
  exists e, merge_many dfs names = Raise e.
Proof.
  unfold merge_many.
  destruct (merge_many_frames dfs names) as [frames | e]; simpl;
    eexists; reflexivity.
Qed.

(** C2 (the code departs from it): two panels that share the pairs
    (day 1, ["A"]) and (day 2, ["B"]) are not joined; [reduce] is called
    without the list of frames and [merge_many] ends in [TypeError].  Called
    with the list, [reduce] joins the two unpivoted frames on the pairs they
    share. *)
Theorem merge_many_sample_raises :
  merge_many [panel_one; panel_two] None = Raise TypeError
  /\ (dfs <- merge_many_frames [panel_one; panel_two] None ;;
      functools_reduce merge_on_date_code (Some dfs))
     = Ok (mkDataFrame None None
             [Str "date"; Str "code"; Str "fac1"; Str "fac2"]
             [ (Num 0, [Stamp 1; Str "A"; Num 1; Num 7]);
               (Num 1, [Stamp 2; Str "B"; Num 4; Num 9]) ]).
Proof.
  split; vm_compute; reflexivity.
Qed.

Lemma func_two_daily_raises (df1 df2 : DataFrame scalar) (func : statistic) (w : Z) :
  exists e, func_two_daily df1 df2 func w = Raise e.
Proof.
  unfold func_two_daily.
  destruct (merge_many_raises [df1; df2] None) as [e He].
  rewrite He. exists e. reflexivity.
Qed.

(** ** The final panel *)

Lemma group_frame_columns (kv : scalar * option (list (scalar * scalar))) :
  columns (group_frame kv)
  = match snd kv with
    | None => [Str "code"]
    | Some _ => [Num 0; Num 1; Str "code"]
    end.
Proof.
  destruct kv as [k [arr |]]; reflexivity.
Qed.

Lemma kept_rows_cons (kv : scalar * option (list (scalar * scalar)))
  (corrs : list (scalar * option (list (scalar * scalar)))) :
  kept_rows (kv :: corrs) = kept_rows [kv] ++ kept_rows corrs.
Proof.
  unfold kept_rows. simpl. rewrite app_nil_r. reflexivity.
Qed.

Lemma group_frame_rows (kv : scalar * option (list (scalar * scalar))) :
  map snd (rows (group_frame kv)) = map cells_of (kept_rows [kv]).
Proof.
  destruct kv as [k [arr |]]; [| reflexivity].
  unfold group_frame, kept_rows, assign, dropna, pd_DataFrame. simpl.
  rewrite app_nil_r, !map_map. simpl.
  rewrite <- (map_map snd (fun cells => cells ++ [k])).
  rewrite (filter_range_from (fun cells => negb (existsb isna cells))).
  induction arr as [|p arr IH]; simpl.
  - reflexivity.
  - rewrite orb_false_r.
    destruct (isna (fst p) || isna (snd p)); simpl; rewrite IH; reflexivity.
Qed.

Lemma map_snd_cells (A B C : Type) (g : B -> C) (l : list (A * B)) :
  map snd (map (fun r => (fst r, g (snd r))) l) = map g (map snd l).
Proof.
  rewrite !map_map. reflexivity.
Qed.

(** Rows of a group frame, laid under the three labels of the first frame:
    nothing moves. *)
Lemma group_frame_reindexed (kv : scalar * option (list (scalar * scalar))) :
  map snd
    (map (fun r =>
            (fst r,
             map (fun c => cell_at c (columns (group_frame kv)) (snd r))
               [Num 0; Num 1; Str "code"]))
       (rows (group_frame kv)))
  = map cells_of (kept_rows [kv]).
Proof.
  rewrite (map_snd_cells
             (fun cells =>
                map (fun c => cell_at c (columns (group_frame kv)) cells)
                  [Num 0; Num 1; Str "code"])).
  rewrite group_frame_rows, group_frame_columns.
  destruct kv as [k [arr |]]; [| reflexivity].
  rewrite map_map. apply map_ext. intros [[d v] c]. reflexivity.
Qed.

Lemma filter_all (A : Type) (p : A -> bool) (l : list A) :
  (forall a, In a l -> p a = true) -> List.filter p l = l.
Proof.
  induction l as [|a l IH]; intros H; simpl.
  - reflexivity.
  - rewrite (H a) by (left; reflexivity).
    f_equal. apply IH. intros b Hb. apply H. right. exact Hb.
Qed.

Lemma union_labels_group_frames
  (corrs : list (scalar * option (list (scalar * scalar)))) :
  fold_left
    (fun acc cols => acc ++ List.filter (fun c => negb (has_label c acc)) cols)
    (map (@columns scalar) (map group_frame corrs))
    [Num 0; Num 1; Str "code"]
  = [Num 0; Num 1; Str "code"].
Proof.
  induction corrs as [|kv corrs IH]; simpl.
  - reflexivity.
  - rewrite group_frame_columns. destruct (snd kv); exact IH.
Qed.

Lemma pd_concat_all_kept (f0 : DataFrame scalar) (fs : list (DataFrame scalar)) :
  (forall df, In df (f0 :: fs) -> columns df <> []) ->
  pd_concat (f0 :: fs)
  = Ok (mkDataFrame None None (union_labels (map (@columns scalar) (f0 :: fs)))
          (flat_map
             (fun df =>
                map (fun r =>
                       (fst r,
                        map (fun c => cell_at c (columns df) (snd r))
                          (union_labels (map (@columns scalar) (f0 :: fs)))))
                  (rows df))
             (f0 :: fs))).
Proof.
  intros Hcols. unfold pd_concat.
  rewrite (@filter_all _ _ (f0 :: fs)).
  - reflexivity.
  - intros df Hdf. apply Hcols in Hdf.
    destruct (columns df); [congruence |].
    simpl. rewrite Nat.add_comm. reflexivity.
Qed.

Lemma group_frames_rows (corrs : list (scalar * option (list (scalar * scalar)))) :
  map snd
    (flat_map
       (fun df =>
          map (fun r =>
                 (fst r,
                  map (fun c => cell_at c (columns df) (snd r))
                    [Num 0; Num 1; Str "code"]))
            (rows df))
       (map group_frame corrs))
  = map cells_of (kept_rows corrs).
Proof.
  induction corrs as [|kv corrs IH].
  - reflexivity.
  - rewrite kept_rows_cons, map_app. cbn [map flat_map].
    rewrite map_app. f_equal; [apply group_frame_reindexed | exact IH].
Qed.

(** The concatenation of the group frames when the first group has
    results: the labels are those of its frame, the rows are the kept rows
    of all groups. *)
Lemma pd_concat_group_frames (k0 : scalar) (arr0 : list (scalar * scalar))
  (rest : list (scalar * option (list (scalar * scalar)))) :
  exists body,
    pd_concat (map group_frame ((k0, Some arr0) :: rest))
    = Ok (mkDataFrame None None [Num 0; Num 1; Str "code"] body)
    /\ map snd body = map cells_of (kept_rows ((k0, Some arr0) :: rest)).
Proof.
  assert (Hlabels : union_labels
                      (map (@columns scalar)
                         (map group_frame ((k0, Some arr0) :: rest)))
                    = [Num 0; Num 1; Str "code"]).
  { unfold union_labels. simpl. apply (union_labels_group_frames rest). }
  change (map group_frame ((k0, Some arr0) :: rest))
    with (group_frame (k0, Some arr0) :: map group_frame rest) in *.
  rewrite pd_concat_all_kept.
  - rewrite Hlabels. eexists. split; [reflexivity |].
    apply (group_frames_rows ((k0, Some arr0) :: rest)).
  - intros df Hdf.
    assert (Hin : In df (map group_frame ((k0, Some arr0) :: rest))) by exact Hdf.
    apply in_map_iff in Hin. destruct Hin as [kv [<- _]].
    rewrite group_frame_columns. destruct (snd kv); discriminate.
Qed.

(** The axes of a pivoted frame: the distinct values of the two key
    columns, ascending. *)
Lemma pivot_axes (index_label columns_label values_label : scalar)
  (df out : DataFrame scalar) :
  pivot index_label columns_label values_label df = Ok out ->
  index out
  = sorted_unique (map (fun r => cell_at index_label (columns df) (snd r)) (rows df))
  /\ columns out
     = sorted_unique
         (map (fun r => cell_at columns_label (columns df) (snd r)) (rows df)).
Proof.
  unfold pivot.
  destruct (has_label index_label (columns df)
            && has_label columns_label (columns df)
            && has_label values_label (columns df)); [| discriminate].
  match goal with
  | |- context [if ?c then _ else _] => destruct c; [discriminate |]
  end.
  intros H. inversion H. subst out. clear H. unfold index. simpl.
  rewrite !map_map. simpl. rewrite map_id. split; reflexivity.
Qed.

(** When the first group in code order has results, a panel that
    [func_two_daily] assembles carries on its time axis the timestamps of the
    kept rows and on its entity axis their codes. *)
Lemma cors_of_axes (k0 : scalar) (arr0 : list (scalar * scalar))
  (rest : list (scalar * option (list (scalar * scalar))))
  (out : DataFrame scalar) :
  cors_of ((k0, Some arr0) :: rest) = Ok out ->
  index out
  = sorted_unique (map (fun t => fst (fst t)) (kept_rows ((k0, Some arr0) :: rest)))
  /\ columns out
     = sorted_unique (map snd (kept_rows ((k0, Some arr0) :: rest))).
Proof.
  unfold cors_of.
  change (map (fun kv => assign (Str "code") (fst kv) (dropna (pd_DataFrame (snd kv))))
            ((k0, Some arr0) :: rest))
    with (map group_frame ((k0, Some arr0) :: rest)).
  destruct (pd_concat_group_frames k0 arr0 rest) as [body [Hc Hb]].
  rewrite Hc. unfold set_columns. simpl.
  intros H. apply pivot_axes in H. simpl in H. destruct H as [Hi Hcol].
  rewrite Hi, Hcol.
  rewrite <- (map_map snd (fun cells => cell_at (Str "date")
                [Str "date"; Str "corr"; Str "code"] cells)).
  rewrite <- (map_map snd (fun cells => cell_at (Str "code")
                [Str "date"; Str "corr"; Str "code"] cells)).
  rewrite Hb, !map_map. split; f_equal; apply map_ext; intros [[d v] c];
    reflexivity.
Qed.

Lemma pivot_returns (index_label columns_label values_label : scalar)
  (df : DataFrame scalar) :
  has_label index_label (columns df) && has_label columns_label (columns df)
  && has_label values_label (columns df) = true ->
  existsb (fun b => b)
    (duplicated []
       (map (fun r => [cell_at index_label (columns df) (snd r);
                       cell_at columns_label (columns df) (snd r)])
          (rows df))) = false ->
  exists out, pivot index_label columns_label values_label df = Ok out.
Proof.
  intros Hlabels Hdup. unfold pivot. rewrite Hlabels.
  rewrite map_map. cbn [fst snd]. rewrite Hdup. eexists. reflexivity.
Qed.

(** The only thing that stops the assembly of such a panel is a pair
    (timestamp, code) met twice among the kept rows; a result that is [nan]
    never does. *)
Lemma cors_of_returns (k0 : scalar) (arr0 : list (scalar * scalar))
  (rest : list (scalar * option (list (scalar * scalar)))) :
  existsb (fun b => b)
    (duplicated []
       (map (fun t => [fst (fst t); snd t])
          (kept_rows ((k0, Some arr0) :: rest)))) = false ->
  exists out, cors_of ((k0, Some arr0) :: rest) = Ok out.
Proof.
  intros Hdup. unfold cors_of.
  change (map (fun kv => assign (Str "code") (fst kv) (dropna (pd_DataFrame (snd kv))))
            ((k0, Some arr0) :: rest))
    with (map group_frame ((k0, Some arr0) :: rest)).
  destruct (pd_concat_group_frames k0 arr0 rest) as [body [Hc Hb]].
  rewrite Hc. unfold set_columns. cbn [bind List.length columns Nat.eqb].
  apply pivot_returns; [reflexivity |]. cbn [columns rows].
  rewrite <- (map_map snd
                (fun cells =>
                   [cell_at (Str "date") [Str "date"; Str "corr"; Str "code"] cells;
                    cell_at (Str "code") [Str "date"; Str "corr"; Str "code"] cells])).
  rewrite Hb, map_map.
  rewrite (map_ext _ (fun t : scalar * scalar * scalar => [fst (fst t); snd t])).
  - exact Hdup.
  - intros [[d v] c]. reflexivity.
Qed.


(** With every group long enough, the panel has the window ends on its time
    axis and the entities on the other; a result that is [nan] drops its row
    and raises nothing. *)
Example cors_of_drops_nan :
  (corrs <- corrs_of undefined_on_day_2 1 (single_entity 3) ;; cors_of corrs)
  = Ok (mkDataFrame (Some (Str "date")) (Some (Str "code")) [Str "A"]
          [ (Stamp 1, [Num 1]); (Stamp 3, [Num 3]) ]).
Proof. vm_compute. reflexivity. Qed.

(** C4 (the code departs from it): ["A"] shares one day with the other
    panel and ["B"] three, the window is 2.  [func_two_daily] stops in
    [merge_many].  On the table the join is written to deliver, the empty
    frame of ["A"] brings the column ["code"] first, the three new labels
    land on the wrong columns, and the panel comes out with the entity on the
    time axis and the values of the statistic on the entity axis. *)
Theorem cors_of_short_first_group :
  func_two_daily panel_short_long panel_zeros window_head 2 = Raise TypeError
  /\ (dfs <- merge_many_frames [panel_short_long; panel_zeros] None ;;
      twins <- functools_reduce merge_on_date_code (Some dfs) ;;
      observations twins)
     = Ok short_then_long
  /\ corrs_of window_head 2 short_then_long
     = Ok [ (Str "A", None);
            (Str "B", Some [ (NaN, NaN); (Stamp 2, Num 10); (Stamp 3, Num 20) ]) ]
  /\ (corrs <- corrs_of window_head 2 short_then_long ;; cors_of corrs)
     = Ok (mkDataFrame (Some (Str "date")) (Some (Str "code"))
             [Num 10; Num 20]
             [ (Str "B", [Stamp 2; Stamp 3]) ]).
Proof.
  repeat split; vm_compute; reflexivity.
Qed.

(** * Further properties *)

(** ** add_suffix *)

Lemma append_length (s t : string) :
  String.length (s ++ t) = (String.length s + String.length t)%nat.
Proof.
  induction s as [|c s IH]; simpl; [reflexivity | rewrite IH; reflexivity].
Qed.

Lemma append_inj_left (s1 s2 t1 t2 : string) :
  String.length t1 = String.length t2 ->
  (s1 ++ t1)%string = (s2 ++ t2)%string -> s1 = s2.
Proof.
  revert s2. induction s1 as [|c s1 IH]; intros s2 Hlen H.
  - destruct s2 as [|c2 s2]; [reflexivity |].
    apply (f_equal String.length) in H. simpl in H.
    rewrite append_length in H. lia.
  - destruct s2 as [|c2 s2].
    + apply (f_equal String.length) in H. simpl in H.
      rewrite append_length in H. lia.
    + simpl in H. inversion H. f_equal. apply IH; assumption.
Qed.

Lemma substring_append (s t : string) :
  substring 0 (String.length s) (s ++ t) = s.
Proof.
  induction s as [|c s IH]; simpl.
  - destruct t; reflexivity.
  - rewrite IH. reflexivity.
Qed.

(** The suffix [add_suffix] chooses for a code. *)
Lemma add_suffix_cases (code : string) :
  exists sfx,
    add_suffix code = (code ++ sfx)%string
    /\ (sfx = ".SZ" \/ sfx = ".SH" \/ sfx = ".BJ" \/ sfx = ".UN").
Proof.
  unfold add_suffix.
  destruct (startswith code "0" || startswith code "3");
    [eexists; split; [reflexivity | auto] |].
  destruct (startswith code "6"); [eexists; split; [reflexivity | auto] |].
  destruct (startswith code "8"); eexists; split; try reflexivity; auto.
Qed.

(** X1: [add_suffix] loses nothing: the result is three characters longer
    than the code, the code is read back as its first characters, and two
    codes never get the same result. *)
Theorem add_suffix_injective (a b : string) :
  String.length (add_suffix a) = (String.length a + 3)%nat
  /\ substring 0 (String.length a) (add_suffix a) = a
  /\ (add_suffix a = add_suffix b -> a = b).
Proof.
  destruct (add_suffix_cases a) as [sa [Ha Hsa]].
  destruct (add_suffix_cases b) as [sb [Hb Hsb]].
  rewrite Ha, Hb. repeat split.
  - rewrite append_length.
    destruct Hsa as [-> | [-> | [-> | ->]]]; reflexivity.
  - apply substring_append.
  - apply append_inj_left.
    destruct Hsa as [-> | [-> | [-> | ->]]];
      destruct Hsb as [-> | [-> | [-> | ->]]]; reflexivity.
Qed.

Lemma startswith_append (code sfx p : string) :
  code <> EmptyString -> String.length p = 1%nat ->
  startswith (code ++ sfx) p = startswith code p.
Proof.
  intros Hc Hp. unfold startswith.
  destruct p as [|c [|c' p]]; simpl in Hp; try discriminate.
  destruct code as [|d code]; [congruence |].
  simpl. destruct (ascii_dec c d); [| reflexivity].
  destruct (code ++ sfx)%string, code; reflexivity.
Qed.

Lemma add_suffix_append (s : string) :
  s <> EmptyString ->
  exists t,
    add_suffix s = (s ++ t)%string
    /\ forall sfx, add_suffix (s ++ sfx) = ((s ++ sfx) ++ t)%string.
Proof.
  intros Hs. unfold add_suffix.
  destruct (startswith s "0" || startswith s "3") eqn:E1;
    [| destruct (startswith s "6") eqn:E2;
       [| destruct (startswith s "8") eqn:E3]];
    eexists; (split; [reflexivity |]); intros sfx;
    rewrite !startswith_append by (auto; exact Hs);
    rewrite ?E1, ?E2, ?E3; reflexivity.
Qed.

(** X2: [add_suffix] does not look for a suffix that is already there: on
    its own result it appends the same suffix a second time. *)
Theorem add_suffix_twice (code : string) :
  exists sfx,
    add_suffix code = (code ++ sfx)%string
    /\ add_suffix (add_suffix code) = (code ++ sfx ++ sfx)%string
    /\ add_suffix (add_suffix code) <> add_suffix code.
Proof.
  assert (Hassoc : forall s t u : string,
             ((s ++ t) ++ u)%string = (s ++ t ++ u)%string).
  { intros s t u. induction s as [|c s IH]; simpl; [| rewrite IH]; reflexivity. }
  assert (H : exists sfx,
             add_suffix code = (code ++ sfx)%string
             /\ add_suffix (add_suffix code) = (code ++ sfx ++ sfx)%string).
  { destruct code as [|c code].
    - exists ".UN". split; reflexivity.
    - destruct (@add_suffix_append (String c code)) as [t [H1 H2]];
        [discriminate |].
      exists t. split; [exact H1 |].
      rewrite H1, H2. apply Hassoc. }
  destruct H as [sfx [H1 H2]]. exists sfx. split; [exact H1 |].
  split; [exact H2 |].
  intros Heq. rewrite H2, H1 in Heq.
  apply (f_equal String.length) in Heq. rewrite !append_length in Heq.
  destruct (add_suffix_cases code) as [sfx' [H3 Hs]]. rewrite H1 in H3.
  apply (f_equal String.length) in H3. rewrite !append_length in H3.
  destruct Hs as [-> | [-> | [-> | ->]]]; simpl in H3; lia.
Qed.

(** ** convert_code *)

Lemma split_on_nonempty (sep : ascii) (s : string) : split_on sep s <> [].
Proof.
  destruct s as [|c s]; simpl; [discriminate |].
  destruct (Ascii.eqb c sep); [discriminate |].
  destruct (split_on sep s); discriminate.
Qed.

Lemma split_on_absent (sep : ascii) (s : string) :
  has_char sep s = false -> split_on sep s = [s].
Proof.
  induction s as [|c s IH]; simpl; intros H.
  - reflexivity.
  - apply orb_false_iff in H. destruct H as [Hc Hs].
    rewrite Hc, (IH Hs). reflexivity.
Qed.

Lemma split_on_append (sep : ascii) (p x : string) :
  split_on sep (p ++ String sep x) = split_on sep p ++ split_on sep x.
Proof.
  induction p as [|c p IH]; simpl.
  - rewrite Ascii.eqb_refl. reflexivity.
  - destruct (Ascii.eqb c sep).
    + rewrite IH. reflexivity.
    + rewrite IH. destruct (split_on sep p) as [|piece pieces] eqn:E.
      * exfalso. exact (split_on_nonempty _ _ E).
      * reflexivity.
Qed.

Lemma has_char_pieces (c sep : ascii) (s : string) :
  has_char c s = false ->
  forall piece, In piece (split_on sep s) -> has_char c piece = false.
Proof.
  induction s as [|d s IH]; simpl; intros H piece Hin.
  - destruct Hin as [<- | []]. reflexivity.
  - apply orb_false_iff in H. destruct H as [Hd Hs].
    destruct (Ascii.eqb d sep).
    + destruct Hin as [<- | Hin]; [reflexivity | apply IH; assumption].
    + destruct (split_on sep s) as [|h t] eqn:E.
      * destruct Hin as [<- | []]. simpl. rewrite Hd. reflexivity.
      * destruct Hin as [<- | Hin].
        -- simpl. rewrite Hd. apply IH; [exact Hs | left; reflexivity].
        -- apply IH; [exact Hs | right; exact Hin].
Qed.

Lemma nth_error_last (A : Type) (l : list A) (d : A) :
  l <> [] -> nth_error l (List.length l - 1) = Some (last l d).
Proof.
  induction l as [|a l IH]; intros H; [congruence |].
  destruct l as [|b l]; [reflexivity |].
  assert (Hb : b :: l <> []) by discriminate.
  specialize (IH Hb). simpl in *. rewrite Nat.sub_0_r in IH. exact IH.
Qed.

(** [l\[-1\]] is the last element of a list that has one. *)
Lemma subscript_last (A : Type) (l : list A) (d : A) :
  l <> [] -> subscript l (-1) = Ok (last l d).
Proof.
  intros H. unfold subscript.
  assert (Hlen : (0 < List.length l)%nat).
  { destruct l; [congruence | simpl; lia]. }
  replace (-1 <? 0) with true by reflexivity.
  replace ((0 <=? -1 + Z.of_nat (List.length l))
           && (-1 + Z.of_nat (List.length l) <? Z.of_nat (List.length l)))
    with true
    by (symmetry; apply andb_true_iff; split;
        [apply Z.leb_le | apply Z.ltb_lt]; lia).
  replace (Z.to_nat (-1 + Z.of_nat (List.length l)))
    with (List.length l - 1)%nat by lia.
  rewrite (nth_error_last d H). reflexivity.
Qed.

Lemma subscript_first (A : Type) (a : A) (l : list A) :
  subscript (a :: l) 0 = Ok a.
Proof.
  unfold subscript.
  replace ((0 <=? 0) && (0 <? Z.of_nat (List.length (a :: l)))) with true
    by (symmetry; apply andb_true_iff; split;
        [apply Z.leb_le | apply Z.ltb_lt]; simpl; lia).
  reflexivity.
Qed.

Lemma subscript_in_range (A : Type) (l : list A) (n : Z) :
  0 <= n < Z.of_nat (List.length l) ->
  subscript l n = match nth_error l (Z.to_nat n) with
                  | Some v => Ok v
                  | None => Raise IndexError
                  end.
Proof.
  intros H. unfold subscript. cbv zeta.
  replace (n <? 0) with false by (symmetry; apply Z.ltb_ge; lia).
  replace ((0 <=? n) && (n <? Z.of_nat (List.length l))) with true
    by (symmetry; apply andb_true_iff; split;
        [apply Z.leb_le | apply Z.ltb_lt]; lia).
  reflexivity.
Qed.

Lemma subscript_out_of_range (A : Type) (l : list A) (n : Z) :
  Z.of_nat (List.length l) <= n -> subscript l n = Raise IndexError.
Proof.
  intros H. unfold subscript. cbv zeta.
  replace (n <? 0) with false by (symmetry; apply Z.ltb_ge; lia).
  replace (n <? Z.of_nat (List.length l)) with false
    by (symmetry; apply Z.ltb_ge; lia).
  rewrite andb_false_r. reflexivity.
Qed.

Lemma subscript_second (A : Type) (a b : A) (l : list A) :
  subscript (a :: b :: l) 1 = Ok b.
Proof.
  rewrite subscript_in_range by (simpl; lia). reflexivity.
Qed.

Lemma last_append (A : Type) (l1 l2 : list A) (d : A) :
  l2 <> [] -> last (l1 ++ l2) d = last l2 d.
Proof.
  intros H. induction l1 as [|a l1 IH]; [reflexivity |].
  simpl. destruct (l1 ++ l2) eqn:E; [| exact IH].
  apply app_eq_nil in E. destruct E as [_ E]. congruence.
Qed.

Lemma last_piece_append (p x : string) :
  subscript (split_on "/" (p ++ String "/" x)) (-1)
  = subscript (split_on "/" x) (-1).
Proof.
  rewrite split_on_append.
  rewrite (@subscript_last _ (split_on "/" p ++ split_on "/" x) EmptyString).
  - rewrite (@subscript_last _ (split_on "/" x) EmptyString)
      by apply split_on_nonempty.
    f_equal. apply last_append. apply split_on_nonempty.
  - intros H. apply app_eq_nil in H. destruct H as [_ H].
    exact (split_on_nonempty _ _ H).
Qed.

(** X3: only what follows the last ["/"] counts: a path in front of a code
    changes neither the converted code nor its kind, nor the error. *)
Theorem convert_code_ignores_path (p x : string) :
  convert_code (p ++ String "/" x) = convert_code x.
Proof.
  unfold convert_code. rewrite !last_piece_append. reflexivity.
Qed.

Lemma string_eqb_true (s t : string) : String.eqb s t = true -> s = t.
Proof. apply String.eqb_eq. Qed.

Lemma first_char_startswith (a : ascii) (r c : string) :
  String.eqb (String a EmptyString) c = true ->
  startswith (String a r) c = true.
Proof.
  intros H. apply string_eqb_true in H. subst c.
  unfold startswith. simpl. destruct (ascii_dec a a); [| congruence].
  destruct r; reflexivity.
Qed.

Lemma first_two_startswith (a : ascii) (r : string) :
  String.eqb (substring 0 2 (String a r)) "30" = true ->
  startswith (String a r) "3" = true.
Proof.
  intros H. apply string_eqb_true in H. simpl in H. inversion H.
  unfold startswith. simpl. destruct r; reflexivity.
Qed.

(** X4: whenever [convert_code] calls a code a stock, the converted code
    is the one [add_suffix] builds from the bare code. *)
Theorem convert_code_stock_add_suffix (x y : string) :
  convert_code x = Ok (y, "stock") ->
  y = add_suffix (hd EmptyString
                    (split_on "." (last (split_on "/" x) EmptyString))).
Proof.
  unfold convert_code.
  rewrite (@subscript_last _ (split_on "/" x) EmptyString)
    by apply split_on_nonempty.
  cbn [bind].
  destruct (split_on "." (last (split_on "/" x) EmptyString))
    as [|x1 [|x2 rest]] eqn:E.
  - intros H. discriminate H.
  - rewrite subscript_first. cbn [bind]. intros H. discriminate H.
  - rewrite subscript_first, subscript_second. cbn [bind hd].
    destruct x1 as [|a r]; [intros H; discriminate H |].
    change (chars (String a r))
      with (String a EmptyString :: chars r).
    rewrite subscript_first. cbn [bind].
    set (x2' := if String.eqb x2 "XSHE" then ".SZ"
                else if String.eqb x2 "XSHG" then ".SH" else x2).
    destruct ((String.eqb (String a EmptyString) "0"
               || String.eqb (substring 0 2 (String a r)) "30")
              && String.eqb x2' ".SZ") eqn:C1.
    + intros H. inversion H. subst y.
      apply andb_true_iff in C1. destruct C1 as [C1 C2].
      apply string_eqb_true in C2. rewrite C2.
      unfold add_suffix.
      apply orb_true_iff in C1. destruct C1 as [C1 | C1].
      * rewrite (@first_char_startswith a r _ C1). reflexivity.
      * rewrite (@first_two_startswith a r C1). rewrite orb_true_r. reflexivity.
    + destruct (String.eqb (String a EmptyString) "6"
                && String.eqb x2' ".SH") eqn:C3.
      * intros H. inversion H. subst y.
        apply andb_true_iff in C3. destruct C3 as [C3 C4].
        apply string_eqb_true in C4. rewrite C4.
        apply string_eqb_true in C3. inversion C3. subst a.
        unfold add_suffix, startswith. simpl. destruct r; reflexivity.
      * intros H. inversion H.
Qed.

Lemma convert_code_stock_add_suffix_witness :
  convert_code "000001.XSHE" = Ok ("000001.SZ", "stock")
  /\ "000001.SZ"
     = add_suffix (hd EmptyString
                     (split_on "."
                        (last (split_on "/" "000001.XSHE") EmptyString))).
Proof.
  assert (H : convert_code "000001.XSHE" = Ok ("000001.SZ", "stock"))
    by reflexivity.
  split; [exact H |].
  apply (convert_code_stock_add_suffix "000001.XSHE" H).
Defined.

Lemma has_char_append (c : ascii) (s t : string) :
  has_char c (s ++ t) = has_char c s || has_char c t.
Proof.
  induction s as [|d s IH]; simpl; [reflexivity |].
  rewrite IH, orb_assoc. reflexivity.
Qed.

Lemma startswith_substring (s p : string) :
  String.eqb (substring 0 (String.length p) s) p = startswith s p.
Proof.
  unfold startswith.
  destruct (prefix p s) eqn:E.
  - apply prefix_correct in E. rewrite E. apply String.eqb_refl.
  - apply String.eqb_neq. intros H. apply prefix_correct in H. congruence.
Qed.

Lemma exchange_suffix_SZ (ex : string) :
  has_char "." ex = false ->
  String.eqb (exchange_suffix ex) ".SZ" = String.eqb ex "XSHE"
  /\ String.eqb (exchange_suffix ex) ".SH" = String.eqb ex "XSHG".
Proof.
  intros H. unfold exchange_suffix.
  destruct (String.eqb ex "XSHE") eqn:E1.
  - apply String.eqb_eq in E1. subst ex. split; reflexivity.
  - destruct (String.eqb ex "XSHG") eqn:E2.
    + split; reflexivity.
    + split; apply String.eqb_neq; intros ->; discriminate H.
Qed.

(** X5: a code written as bare code, dot, exchange is converted to the
    bare code followed by [.SZ] for [XSHE], by [.SH] for [XSHG], and by the
    exchange as it is, without the dot, for any other; it is a stock on
    [XSHE] when the bare code starts with 0 or 30, on [XSHG] when it starts
    with 6, and an index in every other case. *)
Theorem convert_code_dotted (x1 ex : string) :
  x1 <> EmptyString ->
  has_char "/" x1 = false -> has_char "." x1 = false ->
  has_char "/" ex = false -> has_char "." ex = false ->
  convert_code (x1 ++ String "." ex)
  = Ok ((x1 ++ exchange_suffix ex)%string,
        if (String.eqb ex "XSHE" && (startswith x1 "0" || startswith x1 "30"))
           || (String.eqb ex "XSHG" && startswith x1 "6")
        then "stock" else "index").
Proof.
  intros Hne Hs1 Hd1 Hs2 Hd2.
  assert (Hwhole : split_on "/" (x1 ++ String "." ex) = [(x1 ++ String "." ex)%string]).
  { apply split_on_absent. rewrite has_char_append. simpl.
    rewrite Hs1, Hs2. reflexivity. }
  assert (Hparts : split_on "." (x1 ++ String "." ex) = [x1; ex]).
  { rewrite split_on_append, !split_on_absent by assumption. reflexivity. }
  unfold convert_code. rewrite Hwhole.
  rewrite (@subscript_last _ [(x1 ++ String "." ex)%string] EmptyString)
    by discriminate.
  cbn [bind last]. rewrite Hparts, subscript_first, subscript_second.
  cbn [bind]. fold (exchange_suffix ex).
  destruct x1 as [|a r]; [congruence |].
  change (chars (String a r)) with (String a EmptyString :: chars r).
  rewrite subscript_first. cbn [bind].
  destruct (exchange_suffix_SZ ex Hd2) as [-> ->].
  change (substring 0 2 (String a r))
    with (substring 0 (String.length "30") (String a r)).
  rewrite startswith_substring.
  assert (H0 : forall c : string, String.length c = 1%nat ->
               String.eqb (String a EmptyString) c = startswith (String a r) c).
  { intros c Hc. destruct c as [|c0 [|c1 c]]; simpl in Hc; try discriminate.
    unfold startswith.
    destruct (String.eqb (String a EmptyString) (String c0 EmptyString)) eqn:E;
      destruct (prefix (String c0 EmptyString) (String a r)) eqn:P;
      try reflexivity.
    - apply String.eqb_eq in E. inversion E; subst. simpl in P.
      destruct (ascii_dec c0 c0); [destruct r; discriminate | congruence].
    - apply String.eqb_neq in E. simpl in P.
      destruct (ascii_dec c0 a); [subst; congruence | discriminate]. }
  rewrite !H0 by reflexivity.
  destruct (startswith (String a r) "0"), (startswith (String a r) "30"),
    (startswith (String a r) "6"), (String.eqb ex "XSHE") eqn:E1,
    (String.eqb ex "XSHG") eqn:E2; try reflexivity;
    apply String.eqb_eq in E1; apply String.eqb_eq in E2; congruence.
Qed.

Lemma convert_code_dotted_witness :
  "300750" <> EmptyString
  /\ has_char "/" "300750" = false /\ has_char "." "300750" = false
  /\ has_char "/" "XSHE" = false /\ has_char "." "XSHE" = false
  /\ convert_code ("300750" ++ String "." "XSHE")
     = Ok (("300750" ++ exchange_suffix "XSHE")%string,
           if (String.eqb "XSHE" "XSHE"
               && (startswith "300750" "0" || startswith "300750" "30"))
              || (String.eqb "XSHE" "XSHG" && startswith "300750" "6")
           then "stock" else "index").
Proof.
  assert (Hne : "300750" <> EmptyString) by discriminate.
  repeat (split; [first [exact Hne | reflexivity] |]).
  apply (@convert_code_dotted "300750" "XSHE" Hne); reflexivity.
Defined.

(** X6: a name without dot after its last ["/"], and a name that starts
    with the dot, are not converted: both end in [IndexError]. *)
Theorem convert_code_index_errors (x ex : string) :
  has_char "." x = false ->
  has_char "/" ex = false ->
  convert_code x = Raise IndexError
  /\ convert_code (String "." ex) = Raise IndexError.
Proof.
  intros Hx Hex. split.
  - unfold convert_code.
    rewrite (@subscript_last _ (split_on "/" x) EmptyString)
      by apply split_on_nonempty.
    cbn [bind].
    rewrite split_on_absent.
    + rewrite subscript_first. cbn [bind].
      rewrite subscript_out_of_range by (simpl; lia). reflexivity.
    + apply (@has_char_pieces "." "/" x Hx).
      destruct (split_on "/" x) as [|h t] eqn:E.
      * exfalso. exact (split_on_nonempty _ _ E).
      * clear E. revert h. induction t as [|h' t IH]; intros h.
        -- left. reflexivity.
        -- right. apply (IH h').
  - unfold convert_code.
    assert (Hwhole : split_on "/" (String "." ex) = [String "." ex]).
    { apply split_on_absent. simpl. exact Hex. }
    rewrite Hwhole.
    rewrite (@subscript_last _ [String "." ex] EmptyString) by discriminate.
    cbn [bind last].
    change (split_on "." (String "." ex))
      with (EmptyString :: split_on "." ex).
    rewrite subscript_first. cbn [bind].
    destruct (split_on "." ex) as [|h t] eqn:E.
    + exfalso. exact (split_on_nonempty _ _ E).
    + rewrite subscript_second. reflexivity.
Qed.

Lemma convert_code_index_errors_witness :
  has_char "." "000001" = false
  /\ has_char "/" "XSHE" = false
  /\ convert_code "000001" = Raise IndexError
  /\ convert_code (String "." "XSHE") = Raise IndexError.
Proof.
  split; [reflexivity |]. split; [reflexivity |].
  apply (@convert_code_index_errors "000001" "XSHE"); reflexivity.
Defined.

(** ** set_index_first and change_index_name *)

(** Moving the first column back into the index undoes [reset_index] on
    the rows. *)
Lemma restore_rows (name : scalar) (cols : list scalar)
  (body : list (scalar * list scalar)) :
  ~ In name cols ->
  forall start : Z,
    map (fun r => (hd NaN (under name (name :: cols) (snd r)),
                   without name (name :: cols) (snd r)))
      (range_from start (map (fun r => fst r :: snd r) body))
    = body.
Proof.
  intros Hn. induction body as [|[t cells] body IH]; intros start.
  - reflexivity.
  - cbn [map range_from fst snd]. rewrite IH. f_equal.
    cbn [under without]. rewrite scalar_eqb_refl.
    rewrite under_absent by exact Hn.
    rewrite without_absent by exact Hn. reflexivity.
Qed.

Lemma set_index_first_column (name : scalar) (cols : list scalar)
  (iname cname : option scalar) (body : list (scalar * list scalar)) :
  set_index_first (mkDataFrame iname cname (name :: cols) body)
  = if has_label name cols
    then Raise ValueError
    else Ok (mkDataFrame (Some name) cname cols
               (map (fun r => (hd NaN (under name (name :: cols) (snd r)),
                               without name (name :: cols) (snd r)))
                  body)).
Proof.
  unfold set_index_first, first_column, set_index. cbn [bind columns].
  cbn [List.filter]. rewrite scalar_eqb_refl. cbn [negb].
  destruct (has_label name cols) eqn:E.
  - apply has_label_In in E.
    destruct (List.filter (scalar_eqb name) cols) as [|c rest] eqn:F;
      [| reflexivity].
    exfalso.
    assert (H : In name (List.filter (scalar_eqb name) cols)).
    { apply filter_In. split; [exact E | apply scalar_eqb_refl]. }
    rewrite F in H. destruct H.
  - apply has_label_false in E.
    destruct (@filter_absent name cols E) as [F1 F2].
    rewrite F1, F2. reflexivity.
Qed.

Lemma change_index_name_value (df : DataFrame scalar) (name : string) :
  change_index_name df name
  = if negb (has_label (reset_name df) (columns df))
       && negb (has_label (Str name) (columns df))
    then Ok (with_index_name (Str name) df)
    else Raise ValueError.
Proof.
  unfold change_index_name, reset_index.
  destruct (has_label (reset_name df) (columns df)) eqn:E1; [reflexivity |].
  cbn [bind negb andb]. unfold set_columns. cbn [columns tl List.length].
  rewrite Nat.eqb_refl. cbn [bind index_name columns_name rows].
  rewrite set_index_first_column.
  destruct (has_label (Str name) (columns df)) eqn:E2; [reflexivity |].
  cbn [negb]. apply has_label_false in E2.
  rewrite restore_rows by exact E2. reflexivity.
Qed.


(** X8: renaming twice is renaming once with the last name, errors
    included, as long as the first name is not the label of a column. *)
Theorem change_index_name_twice (df : DataFrame scalar) (a b : string) :
  has_label (Str a) (columns df) = false ->
  (d <- change_index_name df a ;; change_index_name d b)
  = change_index_name df b.
Proof.
  intros Ha. rewrite (change_index_name_value df a), Ha.
  rewrite (change_index_name_value df b).
  destruct (has_label (reset_name df) (columns df)); [reflexivity |].
  cbn [negb andb bind]. rewrite change_index_name_value.
  unfold with_index_name, reset_name. cbn [index_name columns].
  rewrite Ha. reflexivity.
Qed.

Lemma change_index_name_twice_witness :
  has_label (Str "time") (columns panel_repeats) = false
  /\ (d <- change_index_name panel_repeats "time" ;; change_index_name d "date")
     = change_index_name panel_repeats "date".
Proof.
  split.
  - reflexivity.
  - apply (@change_index_name_twice panel_repeats "time" "date"). reflexivity.
Defined.



(** X10: [set_index_first] takes back what [reset_index] did: the frame
    returns with all its labels and cells, its index called by the label the
    column had; a frame whose index has a name returns as it was.  On a
    frame without columns [set_index_first] raises [IndexError]. *)
Theorem reset_then_set_index_first (df : DataFrame scalar) :
  has_label (reset_name df) (columns df) = false ->
  (d <- reset_index df ;; set_index_first d)
  = Ok (with_index_name (reset_name df) df)
  /\ (forall n, index_name df = Some n ->
      (d <- reset_index df ;; set_index_first d) = Ok df)
  /\ set_index_first
       (mkDataFrame (index_name df) (columns_name df) [] (rows df))
     = Raise IndexError.
Proof.
  intros Hfree.
  assert (H : (d <- reset_index df ;; set_index_first d)
              = Ok (with_index_name (reset_name df) df)).
  { unfold reset_index. rewrite Hfree. cbn [bind].
    rewrite set_index_first_column, Hfree.
    apply has_label_false in Hfree.
    rewrite restore_rows by exact Hfree. reflexivity. }
  split; [exact H |]. split; [| reflexivity].
  intros n Hn. rewrite H. unfold with_index_name, reset_name.
  rewrite Hn. destruct df as [iname cname cols body].
  simpl in *. rewrite Hn. reflexivity.
Qed.

Lemma reset_then_set_index_first_witness :
  has_label (reset_name panel_repeats) (columns panel_repeats) = false
  /\ (d <- reset_index panel_repeats ;; set_index_first d)
     = Ok (with_index_name (reset_name panel_repeats) panel_repeats)
  /\ (forall n, index_name panel_repeats = Some n ->
      (d <- reset_index panel_repeats ;; set_index_first d) = Ok panel_repeats)
  /\ set_index_first
       (mkDataFrame (index_name panel_repeats) (columns_name panel_repeats) []
          (rows panel_repeats))
     = Raise IndexError.
Proof.
  split.
  - reflexivity.
  - apply (@reset_then_set_index_first panel_repeats). reflexivity.
Defined.

(** ** func_two_daily as a whole *)

(** X11: [func_two_daily] and [corr_two_daily] return no panel, whatever
    the panels, the function and the window: they end in the [TypeError] of
    [merge_many], or in the [ValueError] of [reset_index] when the two axes of
    a panel have the same name. *)
Theorem two_daily_raise (corrcoef : list scalar -> list scalar -> scalar)
  (func : statistic) (df1 df2 : DataFrame scalar) (w : Z) :
  func_two_daily df1 df2 func w
  = (if is_ok (stack_reset_index df1) && is_ok (stack_reset_index df2)
     then Raise TypeError else Raise ValueError)
  /\ corr_two_daily corrcoef df1 df2 w
     = (if is_ok (stack_reset_index df1) && is_ok (stack_reset_index df2)
        then Raise TypeError else Raise ValueError).
Proof.
  assert (H : forall f : statistic,
             func_two_daily df1 df2 f w
             = (if is_ok (stack_reset_index df1) && is_ok (stack_reset_index df2)
                then Raise TypeError else Raise ValueError)).
  { intros f. unfold func_two_daily, merge_many, merge_many_frames.
    cbn [mapM bind List.length]. unfold stack_reset_index.
    destruct (scalar_eqb _ _ || scalar_eqb _ (Num 0) || scalar_eqb _ (Num 0));
      [reflexivity |].
    cbn [bind is_ok andb].
    destruct (scalar_eqb _ _ || scalar_eqb _ (Num 0) || scalar_eqb _ (Num 0));
      reflexivity. }
  split; [apply H | apply (H (corr_in corrcoef))].
Qed.

(** ** Groups too short for a window *)

Lemma func_rolling_short (the_func : statistic) (w : Z) (df : list Obs) :
  Z.of_nat (List.length df) <= w -> func_rolling the_func w df = Ok None.
Proof.
  intros H. unfold func_rolling. rewrite sort_by_length.
  replace (Z.of_nat (List.length df) >? w) with false; [reflexivity |].
  symmetry. rewrite Z.gtb_ltb. apply Z.ltb_ge. exact H.
Qed.

Lemma mapM_all (A B : Type) (f : A -> result B) (g : A -> B) (l : list A) :
  (forall a, In a l -> f a = Ok (g a)) -> mapM f l = Ok (map g l).
Proof.
  induction l as [|a l IH]; intros H; simpl.
  - reflexivity.
  - rewrite (H a) by (left; reflexivity). cbn [bind].
    rewrite IH by (intros b Hb; apply H; right; exact Hb). reflexivity.
Qed.

(** X12: when no entity has more rows than the window, the rolling stage
    has no result for any group, and the assembly that follows raises
    [ValueError] instead of returning an empty panel. *)
Theorem short_groups_raise (the_func : statistic) (w : Z) (twins : list Obs) :
  (forall k, In k (group_keys twins) ->
     Z.of_nat (List.length (List.filter (fun o => scalar_eqb (code o) k) twins))
     <= w) ->
  (corrs <- corrs_of the_func w twins ;; cors_of corrs) = Raise ValueError.
Proof.
  intros H.
  assert (Hc : corrs_of the_func w twins = Ok []).
  { unfold corrs_of, groupby_apply.
    rewrite (mapM_all _
               (fun k => (k, @None (list (scalar * scalar))))).
    - cbn [bind].
      replace (forallb (fun kv : scalar * option (list (scalar * scalar)) =>
                          is_none (snd kv))
                 (map (fun k => (k, None)) (group_keys twins)))
        with true; [reflexivity |].
      symmetry. apply forallb_forall. intros kv Hkv.
      apply in_map_iff in Hkv. destruct Hkv as [k [<- _]]. reflexivity.
    - intros k Hk. rewrite func_rolling_short by (apply H; exact Hk).
      reflexivity. }
  rewrite Hc. reflexivity.
Qed.

Lemma short_groups_raise_witness :
  (forall k, In k (group_keys (single_entity 3)) ->
     Z.of_nat (List.length
                 (List.filter (fun o => scalar_eqb (code o) k) (single_entity 3)))
     <= 5)
  /\ (corrs <- corrs_of window_head 5 (single_entity 3) ;; cors_of corrs)
     = Raise ValueError.
Proof.
  assert (H : forall k, In k (group_keys (single_entity 3)) ->
                Z.of_nat (List.length
                            (List.filter (fun o => scalar_eqb (code o) k)
                               (single_entity 3)))
                <= 5).
  { intros k Hk. change (group_keys (single_entity 3)) with [Str "A"] in Hk.
    destruct Hk as [<- | []]. simpl. lia. }
  split; [exact H |].
  apply (@short_groups_raise window_head 5 (single_entity 3) H).
Defined.

(** ** The panel when the first group has results *)

Lemma key_eqb_eq (k1 k2 : list scalar) : key_eqb k1 k2 = true <-> k1 = k2.
Proof.
  unfold key_eqb. destruct (list_eq_dec scalar_eq_dec k1 k2); split; congruence.
Qed.

Lemma duplicated_NoDup (seen keys : list (list scalar)) :
  existsb (fun b => b) (duplicated seen keys) = false ->
  NoDup keys /\ forall k, In k keys -> ~ In k seen.
Proof.
  revert seen. induction keys as [|k keys IH]; intros seen H.
  - split; [constructor | intros k []].
  - cbn [duplicated existsb] in H. apply orb_false_iff in H.
    destruct H as [Hk H]. apply IH in H. destruct H as [Hn Hd].
    assert (Hks : ~ In k seen).
    { intros Hin.
      assert (E : existsb (key_eqb k) seen = true).
      { apply existsb_exists. exists k. split; [exact Hin |].
        apply key_eqb_eq. reflexivity. }
      congruence. }
    split.
    + constructor; [| exact Hn].
      intros Hin. apply (Hd k Hin). left. reflexivity.
    + intros k' [<- | Hin]; [exact Hks |].
      intros Hs. apply (Hd k' Hin). right. exact Hs.
Qed.

Lemma NoDup_map_injective (A B : Type) (f : A -> B) (l : list A) (x y : A) :
  NoDup (map f l) -> In x l -> In y l -> f x = f y -> x = y.
Proof.
  induction l as [|a l IH]; intros Hn Hx Hy Hf; [destruct Hx |].
  inversion Hn as [|b bs Hb Hn']; subst.
  destruct Hx as [<- | Hx], Hy as [<- | Hy].
  - reflexivity.
  - exfalso. apply Hb. rewrite Hf. apply in_map. exact Hy.
  - exfalso. apply Hb. rewrite <- Hf. apply in_map. exact Hx.
  - apply IH; assumption.
Qed.

Lemma cell_at_map (g : scalar -> scalar) (c : scalar) (cls : list scalar) :
  In c cls -> cell_at c cls (map g cls) = g c.
Proof.
  unfold cell_at. induction cls as [|c' cls IH]; intros Hin; [destruct Hin |].
  cbn [map under]. destruct (scalar_eqb c' c) eqn:E.
  - apply scalar_eqb_eq in E. subst. reflexivity.
  - destruct Hin as [-> | Hin]; [rewrite scalar_eqb_refl in E; discriminate |].
    apply IH. exact Hin.
Qed.

(** A pivoted frame holds each entry of the long frame at the crossing of
    its two keys. *)
Lemma pivot_cells (index_label columns_label values_label : scalar)
  (df out : DataFrame scalar) (r : scalar * list scalar) :
  pivot index_label columns_label values_label df = Ok out ->
  In r (rows df) ->
  exists cells,
    In (cell_at index_label (columns df) (snd r), cells) (rows out)
    /\ cell_at (cell_at columns_label (columns df) (snd r)) (columns out) cells
       = cell_at values_label (columns df) (snd r).
Proof.
  unfold pivot.
  destruct (has_label index_label (columns df)
            && has_label columns_label (columns df)
            && has_label values_label (columns df)); [| discriminate].
  set (entry := fun r : scalar * list scalar =>
                  (cell_at index_label (columns df) (snd r),
                   cell_at columns_label (columns df) (snd r),
                   cell_at values_label (columns df) (snd r))).
  set (key := fun e : scalar * scalar * scalar => [fst (fst e); snd (fst e)]).
  destruct (existsb (fun b => b) (duplicated [] (map key (map entry (rows df)))))
    eqn:Hdup; [discriminate |].
  intros H Hr. inversion H. subst out. clear H. cbn [rows columns].
  apply duplicated_NoDup in Hdup. destruct Hdup as [Hn _].
  set (t := cell_at index_label (columns df) (snd r)).
  set (c := cell_at columns_label (columns df) (snd r)).
  assert (He : In (entry r) (map entry (rows df))) by (apply in_map; exact Hr).
  eexists. split.
  - apply in_map_iff. exists t. split; [reflexivity |].
    apply sorted_unique_In. apply in_map_iff. exists (entry r).
    split; [reflexivity | exact He].
  - rewrite cell_at_map.
    + match goal with
      | |- context [find ?p ?l] => destruct (find p l) as [e |] eqn:F
      end.
      * apply find_some in F. destruct F as [Hin Hk]. apply key_eqb_eq in Hk.
        assert (Eq : e = entry r).
        { apply (NoDup_map_injective key _ e (entry r) Hn Hin He).
          exact Hk. }
        rewrite Eq. reflexivity.
      * exfalso.
        assert (Hk : key_eqb (key (entry r)) [t; c] = false)
          by (apply (find_none _ _ F); exact He).
        assert (Hk' : key_eqb (key (entry r)) [t; c] = true)
          by (apply key_eqb_eq; reflexivity).
        congruence.
    + apply sorted_unique_In. apply in_map_iff. exists (entry r).
      split; [reflexivity | exact He].
Qed.

(** X13: when the first group in code order has results and no pair
    (timestamp, code) is met twice among the rows [dropna] keeps, the
    assembly returns a panel whose time axis holds the timestamps of the kept
    rows and whose entity axis holds their codes, both ascending and without
    repeats, and every kept value stands in the cell of its timestamp and its
    code. *)
Theorem cors_of_panel (k0 : scalar) (arr0 : list (scalar * scalar))
  (rest : list (scalar * option (list (scalar * scalar)))) :
  existsb (fun b => b)
    (duplicated []
       (map (fun t => [fst (fst t); snd t])
          (kept_rows ((k0, Some arr0) :: rest)))) = false ->
  exists out,
    cors_of ((k0, Some arr0) :: rest) = Ok out
    /\ index out
       = sorted_unique
           (map (fun t => fst (fst t)) (kept_rows ((k0, Some arr0) :: rest)))
    /\ columns out
       = sorted_unique (map snd (kept_rows ((k0, Some arr0) :: rest)))
    /\ forall d v c,
         In (d, v, c) (kept_rows ((k0, Some arr0) :: rest)) ->
         exists cells,
           In (d, cells) (rows out) /\ cell_at c (columns out) cells = v.
Proof.
  intros Hdup.
  destruct (cors_of_returns k0 arr0 rest Hdup) as [out Hout].
  exists out. split; [exact Hout |].
  destruct (cors_of_axes k0 arr0 rest Hout) as [Hi Hc].
  split; [exact Hi |]. split; [exact Hc |].
  intros d v c Hin.
  revert Hout. unfold cors_of.
  change (map (fun kv => assign (Str "code") (fst kv) (dropna (pd_DataFrame (snd kv))))
            ((k0, Some arr0) :: rest))
    with (map group_frame ((k0, Some arr0) :: rest)).
  destruct (pd_concat_group_frames k0 arr0 rest) as [body [Hcat Hb]].
  rewrite Hcat. unfold set_columns. cbn [bind List.length columns Nat.eqb].
  intros Hp.
  assert (Hr : exists r, In r body /\ snd r = [d; v; c]).
  { assert (H : In (cells_of (d, v, c)) (map snd body)).
    { rewrite Hb. apply in_map. exact Hin. }
    apply in_map_iff in H. destruct H as [r [Hs Hr]].
    exists r. split; [exact Hr | exact Hs]. }
  destruct Hr as [r [Hr Hs]].
  destruct (pivot_cells _ _ _ _ r Hp Hr) as [cells [H1 H2]].
  cbn [columns index_name columns_name rows] in H1, H2.
  rewrite Hs in H1, H2. exists cells. split; [exact H1 | exact H2].
Qed.

Lemma cors_of_panel_witness :
  existsb (fun b => b)
    (duplicated []
       (map (fun t => [fst (fst t); snd t])
          (kept_rows
             ((Str "A", Some [(Stamp 1, Num 7); (Stamp 2, NaN)])
                :: [(Str "B", None); (Str "C", Some [(Stamp 2, Num 9)])]))))
  = false
  /\ exists out,
       cors_of ((Str "A", Some [(Stamp 1, Num 7); (Stamp 2, NaN)])
                  :: [(Str "B", None); (Str "C", Some [(Stamp 2, Num 9)])])
       = Ok out
       /\ index out
          = sorted_unique
              (map (fun t => fst (fst t))
                 (kept_rows
                    ((Str "A", Some [(Stamp 1, Num 7); (Stamp 2, NaN)])
                       :: [(Str "B", None); (Str "C", Some [(Stamp 2, Num 9)])])))
       /\ columns out
          = sorted_unique
              (map snd
                 (kept_rows
                    ((Str "A", Some [(Stamp 1, Num 7); (Stamp 2, NaN)])
                       :: [(Str "B", None); (Str "C", Some [(Stamp 2, Num 9)])])))
       /\ forall d v c,
            In (d, v, c)
              (kept_rows
                 ((Str "A", Some [(Stamp 1, Num 7); (Stamp 2, NaN)])
                    :: [(Str "B", None); (Str "C", Some [(Stamp 2, Num 9)])])) ->
            exists cells,
              In (d, cells) (rows out) /\ cell_at c (columns out) cells = v.
Proof.
  split.
  - reflexivity.
  - apply (@cors_of_panel (Str "A") [(Stamp 1, Num 7); (Stamp 2, NaN)]
             [(Str "B", None); (Str "C", Some [(Stamp 2, Num 9)])]).
    reflexivity.
Defined.

(** ** The rows of a rolling result *)

Lemma func_rolling_long (the_func : statistic) (w : Z) (df : list Obs) :
  1 <= w < Z.of_nat (List.length df) ->
  func_rolling the_func w df
  = Ok (Some
          (prepend_na
             (map (fun s =>
                     the_func
                       (slice s (Z.to_nat w) (map fac1 (sort_by date df)))
                       (slice s (Z.to_nat w) (map fac2 (sort_by date df)))
                       (slice s (Z.to_nat w) (map date (sort_by date df))))
                (seq 0 (List.length df - (Z.to_nat w - 1))))
             (Z.to_nat w - 1))).
Proof.
  intros H. unfold func_rolling, npext_rolling_apply.
  rewrite !length_map, sort_by_length.
  replace (Z.of_nat (List.length df) >? w) with true
    by (symmetry; apply Z.gtb_lt; lia).
  rewrite Nat.eqb_refl. cbn [andb negb].
  replace (Z.of_nat (List.length df) <? w) with false
    by (symmetry; apply Z.ltb_ge; lia).
  replace (w <=? 0) with false by (symmetry; apply Z.leb_gt; lia).
  reflexivity.
Qed.

Lemma nth_map_seq (A : Type) (f : nat -> A) (n i : nat) (d : A) :
  (i < n)%nat -> nth i (map f (seq 0 n)) d = f i.
Proof.
  intros H. rewrite (nth_indep _ d (f 0%nat)) by (rewrite length_map, length_seq; exact H).
  rewrite map_nth, seq_nth by exact H. reflexivity.
Qed.

(** X14: with [corr_in], the array that [func_rolling] returns for a group
    longer than the window lines up with the group sorted by date: it has one
    row per row of the group, the first [w - 1] are [nan], and every later
    row carries the date of the row of the same rank together with the
    correlation of the [w] rows that end there. *)
Theorem corr_in_rows_aligned (corrcoef : list scalar -> list scalar -> scalar)
  (w : Z) (df : list Obs) :
  1 <= w < Z.of_nat (List.length df) ->
  exists arr,
    func_rolling (corr_in corrcoef) w df = Ok (Some arr)
    /\ List.length arr = List.length df
    /\ forall j, (j < List.length df)%nat ->
         nth j arr (NaN, NaN)
         = if (j <? Z.to_nat w - 1)%nat then (NaN, NaN)
           else (nth j (map date (sort_by date df)) NaN,
                 corrcoef
                   (slice (j - (Z.to_nat w - 1)) (Z.to_nat w)
                      (map fac1 (sort_by date df)))
                   (slice (j - (Z.to_nat w - 1)) (Z.to_nat w)
                      (map fac2 (sort_by date df)))).
Proof.
  intros H. rewrite (func_rolling_long _ df H).
  eexists. split; [reflexivity |]. unfold prepend_na. split.
  - rewrite length_app, repeat_length, length_map, length_seq. lia.
  - intros j Hj. destruct (j <? Z.to_nat w - 1)%nat eqn:E.
    + apply Nat.ltb_lt in E.
      rewrite app_nth1 by (rewrite repeat_length; exact E).
      apply nth_repeat.
    + apply Nat.ltb_ge in E.
      rewrite app_nth2 by (rewrite repeat_length; exact E).
      rewrite repeat_length, nth_map_seq by lia.
      unfold corr_in. f_equal.
      rewrite slice_last by (rewrite ?length_map, ?sort_by_length; lia).
      f_equal. lia.
Qed.

Lemma corr_in_rows_aligned_witness :
  1 <= 2 < Z.of_nat (List.length (single_entity 3))
  /\ exists arr,
       func_rolling (corr_in (fun a b => Num 0)) 2 (single_entity 3)
       = Ok (Some arr)
       /\ List.length arr = List.length (single_entity 3)
       /\ forall j, (j < List.length (single_entity 3))%nat ->
            nth j arr (NaN, NaN)
            = if (j <? Z.to_nat 2 - 1)%nat then (NaN, NaN)
              else (nth j (map date (sort_by date (single_entity 3))) NaN,
                    (fun a b : list scalar => Num 0)
                      (slice (j - (Z.to_nat 2 - 1)) (Z.to_nat 2)
                         (map fac1 (sort_by date (single_entity 3))))
                      (slice (j - (Z.to_nat 2 - 1)) (Z.to_nat 2)
                         (map fac2 (sort_by date (single_entity 3))))).
Proof.
  assert (H : 1 <= 2 < Z.of_nat (List.length (single_entity 3)))
    by (simpl; lia).
  split; [exact H |].
  apply (@corr_in_rows_aligned (fun a b => Num 0) 2 (single_entity 3) H).
Defined.

(** ** get_value on cells that cannot be subscripted *)

Lemma chars_length (s : string) : List.length (chars s) = String.length s.
Proof.
  unfold chars. rewrite length_map.
  induction s as [|c s IH]; simpl; [reflexivity | rewrite IH; reflexivity].
Qed.

Lemma subscript_outside (A : Type) (l : list A) (n : Z) :
  (Z.of_nat (List.length l) <=? n) || (n <? - Z.of_nat (List.length l)) = true ->
  subscript l n = Raise IndexError.
Proof.
  intros H. apply orb_true_iff in H. destruct H as [H | H].
  - apply subscript_out_of_range. apply Z.leb_le. exact H.
  - apply Z.ltb_lt in H. unfold subscript. cbv zeta.
    replace (n <? 0) with true by (symmetry; apply Z.ltb_lt; lia).
    replace (0 <=? n + Z.of_nat (List.length l)) with false
      by (symmetry; apply Z.leb_gt; lia).
    reflexivity.
Qed.

Lemma out_of_reach_raises (n : Z) (x : pyobj) :
  out_of_reach n x = true -> exists e, getitem x n = Raise e.
Proof.
  destruct x as [a | items | items]; simpl; intros H.
  - destruct a; try (eexists; reflexivity).
    rewrite subscript_outside by (rewrite chars_length; exact H).
    eexists. reflexivity.
  - rewrite subscript_outside by exact H. eexists. reflexivity.
  - rewrite subscript_outside by exact H. eexists. reflexivity.
Qed.

(** X15: a cell that is no list, tuple or string, and a sequence that [n]
    falls outside of, both come out as [nan]: a frame made of such cells
    turns into a frame of the same shape filled with [nan], without error. *)
Theorem get_value_out_of_reach (df : DataFrame pyobj) (n : Z) :
  forallb (fun r => forallb (out_of_reach n) (snd r)) (rows df) = true ->
  get_value df n
  = Ok (mkDataFrame (index_name df) (columns_name df) (columns df)
          (map (fun r => (fst r, map (fun _ => Atom NaN) (snd r))) (rows df))).
Proof.
  intros H. unfold get_value, applymap.
  rewrite (mapM_all _
             (fun r : scalar * list pyobj =>
                (fst r, map (fun _ : pyobj => Atom NaN) (snd r)))).
  - reflexivity.
  - intros r Hr.
    rewrite forallb_forall in H. specialize (H r Hr).
    rewrite (mapM_all _ (fun _ : pyobj => Atom NaN)); [reflexivity |].
    intros x Hx. rewrite forallb_forall in H. specialize (H x Hx).
    destruct (out_of_reach_raises n x H) as [e He].
    unfold get_value_single, try_except. rewrite He. reflexivity.
Qed.

Lemma get_value_out_of_reach_witness :
  forallb (fun r => forallb (out_of_reach 2) (snd r))
    (rows (mkDataFrame None None [Str "a"; Str "b"]
             [ (Num 0, [Atom (Num 5); PyList [Atom (Num 1); Atom (Num 2)]]);
               (Num 1, [Atom NaN; PyTuple []]) ])) = true
  /\ get_value
       (mkDataFrame None None [Str "a"; Str "b"]
          [ (Num 0, [Atom (Num 5); PyList [Atom (Num 1); Atom (Num 2)]]);
            (Num 1, [Atom NaN; PyTuple []]) ]) 2
     = Ok (mkDataFrame None None [Str "a"; Str "b"]
             (map (fun r => (fst r, map (fun _ => Atom NaN) (snd r)))
                [ (Num 0, [Atom (Num 5); PyList [Atom (Num 1); Atom (Num 2)]]);
                  (Num 1, [Atom NaN; PyTuple []]) ])).
Proof.
  split.
  - reflexivity.
  - apply (@get_value_out_of_reach
             (mkDataFrame None None [Str "a"; Str "b"]
                [ (Num 0, [Atom (Num 5); PyList [Atom (Num 1); Atom (Num 2)]]);
                  (Num 1, [Atom NaN; PyTuple []]) ]) 2).
    reflexivity.
Defined.

(** ** indus_name *)







Lemma with_suffix_absent (sfx : string) (others cols : list scalar) :
  (forall c, In c cols -> ~ In c others) ->
  map (with_suffix sfx others) cols = cols.
Proof.
  intros H. induction cols as [|c cols IH]; [reflexivity |].
  cbn [map]. unfold with_suffix at 1.
  replace (has_label c others) with false
    by (symmetry; apply has_label_false; apply H; left; reflexivity).
  rewrite IH by (intros c' Hc'; apply H; right; exact Hc'). reflexivity.
Qed.










(** ** merge_many on every input *)

Lemma mapM_members (A B : Type) (f : A -> result B) (l : list A) (bs : list B) :
  mapM f l = Ok bs -> forall b, In b bs -> exists a, In a l /\ f a = Ok b.
Proof.
  revert bs. induction l as [|a l IH]; intros bs H b Hb.
  - inversion H. subst. destruct Hb.
  - cbn [mapM] in H. destruct (f a) as [b0 |] eqn:Ea; [| discriminate H].
    cbn [bind] in H. destruct (mapM f l) as [bs0 |]; [| discriminate H].
    cbn [bind] in H. inversion H. subst bs.
    destruct Hb as [<- | Hb].
    + exists a. split; [left; reflexivity | exact Ea].
    + destruct (IH bs0 eq_refl b Hb) as [a' [Ha' Hf]].
      exists a'. split; [right; exact Ha' | exact Hf].
Qed.

Lemma mapM_raises (A B : Type) (f : A -> result B) (l : list A) (e : exn) :
  mapM f l = Raise e -> exists a, In a l /\ f a = Raise e.
Proof.
  induction l as [|a l IH]; intros H; [discriminate H |].
  cbn [mapM] in H. destruct (f a) as [b |] eqn:Ea.
  - cbn [bind] in H. destruct (mapM f l) as [bs |] eqn:El; [discriminate H |].
    cbn [bind] in H. inversion H. subst.
    destruct (IH eq_refl) as [a' [Ha' Hf]].
    exists a'. split; [right; exact Ha' | exact Hf].
  - cbn [bind] in H. inversion H. subst.
    exists a. split; [left; reflexivity | exact Ea].
Qed.

(** X18: [merge_many] returns no table for any list of panels and any
    names, the empty list included: it ends in [TypeError], or in the
    [ValueError] of [reset_index] when the two axes of some panel have the
    same name. *)
Theorem merge_many_error (dfs : list (DataFrame scalar))
  (names : option (list string)) :
  merge_many dfs names
  = (if forallb (fun df => is_ok (stack_reset_index df)) dfs
     then Raise TypeError else Raise ValueError).
Proof.
  unfold merge_many, merge_many_frames.
  destruct (mapM stack_reset_index dfs) as [stacked | e] eqn:E; cbn [bind].
  - replace (forallb (fun df => is_ok (stack_reset_index df)) dfs) with true.
    + match goal with
      | |- context [mapM ?f ?l] => destruct (mapM f l) as [renamed | e] eqn:R
      end; [reflexivity |].
      exfalso. apply mapM_raises in R. destruct R as [[f j] [Hin Hf]].
      apply in_combine_l in Hin.
      destruct (mapM_members _ _ E f Hin) as [df [_ Hs]].
      unfold stack_reset_index in Hs.
      destruct (scalar_eqb _ _ || scalar_eqb _ (Num 0) || scalar_eqb _ (Num 0));
        [discriminate Hs |].
      inversion Hs. subst f. discriminate Hf.
    + symmetry. clear -E. revert stacked E.
      induction dfs as [|df dfs IH]; intros stacked E; [reflexivity |].
      cbn [mapM] in E. cbn [forallb].
      destruct (stack_reset_index df); [| discriminate E].
      cbn [bind] in E.
      destruct (mapM stack_reset_index dfs) as [l |]; [| discriminate E].
      rewrite (IH l eq_refl). reflexivity.
  - replace (forallb (fun df => is_ok (stack_reset_index df)) dfs) with false.
    + apply mapM_raises in E. destruct E as [df [_ Hs]].
      unfold stack_reset_index in Hs.
      destruct (scalar_eqb _ _ || scalar_eqb _ (Num 0) || scalar_eqb _ (Num 0));
        [| discriminate Hs].
      inversion Hs. reflexivity.
    + symmetry. clear -E. revert E.
      induction dfs as [|df dfs IH]; intros E; [discriminate E |].
      cbn [mapM] in E. cbn [forallb].
      destruct (stack_reset_index df); [| reflexivity].
      cbn [bind is_ok andb] in *.
      destruct (mapM stack_reset_index dfs); [discriminate E |].
      apply IH. exact E.
Qed.
